(** * icinga-kubernetes: identity, entity mapping, pod reconciler and
      Prometheus metric pollers

    A shallow embedding of
    - [pkg/metrics/metrics.go]  ([PromMetricSync.Run] and its four poller loops),
    - the pod controller        ([PodSync.Sync] and its helpers),
    - the PVC schema type       ([Pvc.Obtain], [Pvc.Relations]),
    together with the properties the specification states about them. *)

From Stdlib Require Import ZArith Lia List Ascii String.
From Stdlib.Strings Require Import Byte.
From Stdlib Require Import SpecFloat.
From stdpp Require Import base option list gmap strings.

Local Open Scope Z_scope.

(** ** crypto/sha1

    [sha1.Sum] of the Go standard library, on 32-bit words held in [Z]
    with the wrap-around written out. *)
Module sha1.

Definition Size : nat := 20.
Definition BlockSize : nat := 64.

Definition w32 (x : Z) : Z := x mod 2 ^ 32.

Definition rotl (n x : Z) : Z :=
  w32 (Z.lor (Z.shiftl x n) (Z.shiftr x (32 - n))).

Definition not32 (x : Z) : Z := Z.lxor x 4294967295.

(** Big-endian packing of bytes into a word, and back. *)
Definition be_word (bs : list Z) : Z :=
  fold_left (fun acc b => acc * 256 + b) bs 0.

Definition word_bytes (w : Z) : list Z :=
  [ Z.shiftr w 24 mod 256; Z.shiftr w 16 mod 256;
    Z.shiftr w 8 mod 256; w mod 256 ].

Definition len_bytes (bits : Z) : list Z :=
  word_bytes (Z.shiftr bits 32 mod 2 ^ 32) ++ word_bytes (bits mod 2 ^ 32).

(** Padding: 0x80, zeros up to 56 mod 64, then the bit length on 8 bytes. *)
Definition pad (msg : list Z) : list Z :=
  let n := Z.of_nat (length msg) in
  let zeros := Z.to_nat ((55 - n) mod 64) in
  msg ++ 128 :: repeat 0 zeros ++ len_bytes (8 * n).

Fixpoint words (n : nat) (bs : list Z) : list Z :=
  match n with
  | O => []
  | S n' => be_word (firstn 4 bs) :: words n' (skipn 4 bs)
  end.

(** The message schedule is kept as a sliding window of sixteen words. *)
Definition next_w (win : list Z) : Z :=
  rotl 1 (Z.lxor (Z.lxor (nth 13 win 0) (nth 8 win 0))
                 (Z.lxor (nth 2 win 0) (nth 0 win 0))).

Definition f_k (t : nat) (b c d : Z) : Z * Z :=
  if (t <? 20)%nat then
    (Z.lor (Z.land b c) (Z.land (not32 b) d), 1518500249)
  else if (t <? 40)%nat then
    (Z.lxor (Z.lxor b c) d, 1859775393)
  else if (t <? 60)%nat then
    (Z.lor (Z.lor (Z.land b c) (Z.land b d)) (Z.land c d), 2400959708)
  else
    (Z.lxor (Z.lxor b c) d, 3395469782).

Record digest := Digest { h0 : Z; h1 : Z; h2 : Z; h3 : Z; h4 : Z }.

Definition init : digest :=
  Digest 1732584193 4023233417 2562383102 271733878 3285377520.

Fixpoint rounds (n : nat) (t : nat) (win : list Z) (s : digest) : digest :=
  match n with
  | O => s
  | S n' =>
      let '(Digest a b c d e) := s in
      let '(f, k) := f_k t b c d in
      let w := nth 0 win 0 in
      let tmp := w32 (rotl 5 a + f + e + k + w) in
      rounds n' (S t) (tl win ++ [next_w win])
             (Digest tmp a (rotl 30 b) c d)
  end.

Definition block (s : digest) (bs : list Z) : digest :=
  let '(Digest a b c d e) := rounds 80 0 (words 16 bs) s in
  Digest (w32 (h0 s + a)) (w32 (h1 s + b)) (w32 (h2 s + c))
         (w32 (h3 s + d)) (w32 (h4 s + e)).

Fixpoint blocks (n : nat) (s : digest) (bs : list Z) : digest :=
  match n with
  | O => s
  | S n' => blocks n' (block s (firstn 64 bs)) (skipn 64 bs)
  end.

(** [Sum] returns the 20-byte checksum of the data. *)
Definition Sum (data : list Z) : list Z :=
  let p := pad data in
  let s := blocks (length p / 64)%nat init p in
  word_bytes (h0 s) ++ word_bytes (h1 s) ++ word_bytes (h2 s)
    ++ word_bytes (h3 s) ++ word_bytes (h4 s).

End sha1.

(** Go's [[]byte(s)]: the bytes of a string. *)
Definition bytes (s : string) : list Z :=
  map (fun b => Z.of_N (Byte.to_N b)) (list_byte_of_string s).

(** ** Errors and Go control outcomes *)

Inductive error :=
| Err (msg : string)
| Wrap (cause : error) (msg : string).

(** [ctx.Err()] once the context is done. *)
Definition ctxErr : error := Err "context canceled".

(** ** pkg/metrics *)
Module metrics.

(** [model.Sample]: labels, a float64 value, a millisecond timestamp
    ([model.Time] is an int64). *)
Record Sample := {
  Metric : gmap string string;
  Value : spec_float;
  Timestamp : Z
}.

(** [res.Metric[l]]: a missing key of a Go map reads as the zero value. *)
Definition label (res : Sample) (l : string) : string :=
  default "" (Metric res !! l).

(** [res.Value.String() == "NaN"]: [strconv.FormatFloat] prints exactly
    the NaNs as "NaN". *)
Definition isNaN (v : spec_float) : bool :=
  match v with S754_nan => true | _ => false end.

(** [model.Value] as returned by [Query]; only vectors pass the
    [result.(model.Vector)] assertion. *)
Inductive QValue :=
| Vector (v : list Sample)
| NotVector.

Record QueryResponse := {
  result : option QValue;     (* None: the nil interface *)
  warnings : list string;
  err : option error
}.

(** [PromQuery] defines a prometheus query with the metric group, the
    query and the name label. *)
Record PromQuery := {
  metricCategory : string;
  query : string;
  nameLabel : string
}.

(** The four [schemav1.Prometheus*Metric] structs differ only in the name
    of the identifier column ([ClusterId], [NodeId], [PodId],
    [ContainerId]); [Id] stands for it. *)
Record PrometheusMetric := {
  Id : list Z;
  Timestamp_ : Z;
  Category : string;
  Name : string;
  Value_ : spec_float
}.

(** *** int64 arithmetic *)
Definition wrap64 (z : Z) : Z := (z + 2 ^ 63) mod 2 ^ 64 - 2 ^ 63.

(** [model.Time.UnixNano]: [int64(t) * nanosPerTick]. *)
Definition UnixNano (t : Z) : Z := wrap64 (t * 1000000).

(** [(ns - ns%(60*1000000000)) / 1000000] with Go's truncated [%] and [/]. *)
Definition minuteMillis (t : Z) : Z :=
  let ns := UnixNano t in
  Z.quot (wrap64 (ns - Z.rem ns (60 * 1000000000))) 1000000.

Definition metricName (promQuery : PromQuery) (res : Sample) : string :=
  if decide (nameLabel promQuery = "") then ""
  else label res (nameLabel promQuery).

Definition newMetric (id : list Z) (promQuery : PromQuery) (res : Sample)
  : PrometheusMetric :=
  {| Id := id;
     Timestamp_ := minuteMillis (Timestamp res);
     Category := metricCategory promQuery;
     Name := metricName promQuery res;
     Value_ := Value res |}.

(** *** The body of the four [for _, res := range result.(model.Vector)]
    loops up to the channel send: [None] is [continue]. *)
Definition clusterMetric (promQuery : PromQuery) (res : Sample)
  : option PrometheusMetric :=
  if isNaN (Value res) then None
  else
    let clusterId := sha1.Sum (bytes "") in
    Some (newMetric clusterId promQuery res).

Definition nodeMetric (promQuery : PromQuery) (res : Sample)
  : option PrometheusMetric :=
  if isNaN (Value res) then None
  else
    let nodeName := label res "node" in
    let nodeName :=
      if decide (nodeName = "") then label res "instance" else nodeName in
    let nodeId := sha1.Sum (bytes nodeName) in
    Some (newMetric nodeId promQuery res).

Definition podMetric (promQuery : PromQuery) (res : Sample)
  : option PrometheusMetric :=
  if isNaN (Value res) then None
  else if decide (label res "pod" = "") then None
  else
    let podId :=
      sha1.Sum (bytes (label res "namespace" ++ "/" ++ label res "pod")) in
    Some (newMetric podId promQuery res).

Definition containerMetric (promQuery : PromQuery) (res : Sample)
  : option PrometheusMetric :=
  if isNaN (Value res) then None
  else
    let containerId :=
      sha1.Sum (bytes (label res "namespace" ++ "/" ++ label res "pod"
                         ++ "/" ++ label res "container")) in
    Some (newMetric containerId promQuery res).

Inductive Granularity := Cluster | Node | Pod | Container.

Definition metricOf (g : Granularity)
  : PromQuery -> Sample -> option PrometheusMetric :=
  match g with
  | Cluster => clusterMetric
  | Node => nodeMetric
  | Pod => podMetric
  | Container => containerMetric
  end.

(** *** One poller task

    What the task does is recorded as a trace.  The backend is a script
    of responses, one per [Query] call; every [select] takes its outcome
    from a schedule, and an exhausted schedule never cancels. *)
Inductive Event :=
| EvQuery (q : string)
| EvPrint (s : string)
| EvSend (g : Granularity) (m : PrometheusMetric)
| EvWait (seconds : Z).

Inductive Choice := Proceed | Cancelled.

Definition nextChoice (sched : list Choice) : Choice * list Choice :=
  match sched with
  | [] => (Proceed, [])
  | c :: sched' => (c, sched')
  end.

Inductive Exit :=
| Returned (e : error)
| Panicked
| Blocked.   (* waiting for the backend: the script is exhausted *)

Section Task.
Variable g : Granularity.
Variable promQuery : PromQuery.

(** The inner loop over the series; [Some e] is [return ctx.Err()]. *)
Fixpoint forEachSeries (v : list Sample) (sched : list Choice)
  : list Event * list Choice * option error :=
  match v with
  | [] => ([], sched, None)
  | res :: v' =>
      match metricOf g promQuery res with
      | None => forEachSeries v' sched
      | Some m =>
          match nextChoice sched with
          | (Cancelled, sched') => ([], sched', Some ctxErr)
          | (Proceed, sched') =>
              let '(evs, sched'', r) := forEachSeries v' sched' in
              (EvSend g m :: evs, sched'', r)
          end
      end
  end.

Definition printWarnings (ws : list string) : list Event :=
  match ws with
  | [] => []
  | _ => [EvPrint "Warnings"]
  end.

(** The [for { ... }] loop of the task. *)
Fixpoint pollLoop (script : list QueryResponse) (sched : list Choice)
  : list Event * Exit :=
  match script with
  | [] => ([], Blocked)
  | r :: script' =>
      let '(evs, ex) :=
        match err r with
        | Some e => ([], Returned (Wrap e "error querying Prometheus"))
        | None =>
            let '(evs, ex) :=
              match result r with
              | None =>
                  (* continue *)
                  let '(evs, ex) := pollLoop script' sched in
                  (EvPrint "No results found" :: evs, ex)
              | Some NotVector => ([], Panicked)
              | Some (Vector v) =>
                  match forEachSeries v sched with
                  | (sent, sched', Some e) => (sent, Returned e)
                  | (sent, sched', None) =>
                      match nextChoice sched' with
                      | (Cancelled, _) => (sent, Returned ctxErr)
                      | (Proceed, sched'') =>
                          let '(evs, ex) := pollLoop script' sched'' in
                          (sent ++ EvWait 55 :: evs, ex)
                      end
                  end
              end in
            (printWarnings (warnings r) ++ evs, ex)
        end in
      (EvQuery (query promQuery) :: evs, ex)
  end.
End Task.

(** The key of a telemetry row: the upsert statements insert
    [(<entity>_id, timestamp, category, name, value)] and refresh [value]
    on a duplicate key. *)
Definition recordKey (m : PrometheusMetric) : list Z * Z * string * string :=
  (Id m, Timestamp_ m, Category m, Name m).

Definition isQuery (ev : Event) : bool :=
  match ev with EvQuery _ => true | _ => false end.

Definition isWait (ev : Event) : bool :=
  match ev with EvWait 55 => true | _ => false end.

(** Every query but the first of a trace directly follows a 55 second wait. *)
Fixpoint waitedBetween (tr : list Event) : bool :=
  match tr with
  | [] => true
  | ev :: tl =>
      match tl with
      | EvQuery _ :: _ => isWait ev && waitedBetween tl
      | _ => waitedBetween tl
      end
  end.

(** The trace is empty or starts with an event that is not a query. *)
Definition quietHead (tr : list Event) : Prop :=
  match tr with
  | [] => True
  | ev :: _ => isQuery ev = false
  end.

Definition sentMetric (ev : Event) : option PrometheusMetric :=
  match ev with EvSend _ m => Some m | _ => None end.

End metrics.

(** ** Sample inputs used by the examples below *)
Module samples.
Import metrics.

Definition one : spec_float := S754_finite false 1 0.

(** Two of the configured queries. *)
Definition cpuUsageCores : PromQuery :=
  {| metricCategory := "cpu.usage.cores";
     query := "sum by (namespace, pod) (rate(container_cpu_usage_seconds_total[1m]))";
     nameLabel := "" |}.

Definition nodeCount : PromQuery :=
  {| metricCategory := "node.count";
     query := "count(group by (node) (kube_node_info))";
     nameLabel := "" |}.

(** A series that carries no label at all. *)
Definition unlabelled (t : Z) : Sample :=
  {| Metric := ∅; Value := one; Timestamp := t |}.

Definition podSeries (ns pod : string) (t : Z) : Sample :=
  {| Metric := {[ "namespace" := ns; "pod" := pod ]};
     Value := one; Timestamp := t |}.

(** The backend answers with a nil result and no error. *)
Definition noResult : QueryResponse :=
  {| result := None; warnings := []; err := None |}.

Definition vectorOf (v : list Sample) : QueryResponse :=
  {| result := Some (Vector v); warnings := []; err := None |}.

End samples.

(** ** The pod controller ([PodSync]) *)
Module controller.

(** *** Objects of the orchestrator API *)

(** [corev1.Pod], as far as [Sync] reads it. *)
Record K8sPod := {
  PodName : string;
  PodNamespace : string;
  Containers : list string        (* Spec.Containers, by name *)
}.

(** The [obj interface{}] handed to [Sync]. *)
Inductive Object :=
| IsPod (pod : K8sPod)
| NotAPod.

(** [v1beta1.ContainerMetrics] and [v1beta1.PodMetrics]; a usage is kept
    as the integer the quantity accessors return. *)
Record ContainerMetrics := {
  CName : string;
  UsageCPU : Z;
  UsageMemory : Z;
  UsageStorage : Z;
  UsageEphemeralStorage : Z
}.

Record PodMetricsObj := {
  MContainers : list ContainerMetrics;
  MTimestamp : Z;
  MWindow : Z
}.

(** [&v1beta1.PodMetrics{}]: what the generated client's [Get] hands back
    next to a non-nil error. *)
Definition emptyPodMetrics : PodMetricsObj :=
  {| MContainers := []; MTimestamp := 0; MWindow := 0 |}.

(** *** Rows of the relational store *)

(** [schemav1.Pod]: the columns of the pod upsert. *)
Record Pod := {
  Name : string;
  Namespace : string;
  Uid : string;
  Phase : string
}.

(** [schemav1.ContainerLog]. *)
Record ContainerLog := {
  LContainerName : string;
  LPodName : string;
  LNamespace : string;
  Logs : string
}.

(** [schemav1.PodMetrics]; the usages are the float64 quotients of the
    source, kept exact. *)
Record PodMetrics := {
  RNamespace : string;
  RPodName : string;
  RContainerName : string;
  RTimestamp : Z;
  RDuration : Z;
  CPUUsage : Z * Z;
  MemoryUsage : Z * Z;
  StorageUsage : Z * Z;
  EphemeralStorageUsage : Z * Z
}.

(** The store: the three tables [PodSync] writes and the pod telemetry
    table the pollers of [pkg/metrics] write, whose rows carry as [pod_id]
    the digest of [namespace/pod].  The rows [PodSync] writes to [pod] hold
    no derived identifier (columns name, namespace, uid, phase), so nothing
    ties a telemetry row to them but that digest. *)
Record DB := {
  pod : list Pod;
  container_logs : list ContainerLog;
  pod_metrics : list PodMetrics;
  prometheus_pod_metric : list metrics.PrometheusMetric
}.

(** The statements [PodSync] sends to the store. *)
Inductive Stmt :=
| DeleteFromPod (namespace name : string)
| DeleteFromContainerLogs (namespace name : string)
| DeleteFromPodMetrics (namespace name : string)
| UpsertPod (row : Pod)
| UpsertContainerLogs (row : ContainerLog)
| UpsertPodMetrics (row : PodMetrics).

Definition sameKey (ns1 n1 ns2 n2 : string) : bool :=
  bool_decide (ns1 = ns2) && bool_decide (n1 = n2).

(** [INSERT ... ON DUPLICATE KEY UPDATE]: the row replaces the one that
    has its key, or is added.  The schema is not part of the excerpt; the
    keys are those the specification names, (namespace, name) and, for the
    per-container tables, (namespace, name, container). *)
Definition upsert {A} (same : A -> A -> bool) (row : A) (t : list A) : list A :=
  if existsb (same row) t
  then map (fun r => if same row r then row else r) t
  else t ++ [row].

Definition execStmt (s : Stmt) (d : DB) : DB :=
  match s with
  | DeleteFromPod ns n =>
      {| pod := filter (fun r => sameKey (Namespace r) (Name r) ns n = false) (pod d);
         container_logs := container_logs d;
         pod_metrics := pod_metrics d;
         prometheus_pod_metric := prometheus_pod_metric d |}
  | DeleteFromContainerLogs ns n =>
      {| pod := pod d;
         container_logs :=
           filter (fun r => sameKey (LNamespace r) (LPodName r) ns n = false)
                  (container_logs d);
         pod_metrics := pod_metrics d;
         prometheus_pod_metric := prometheus_pod_metric d |}
  | DeleteFromPodMetrics ns n =>
      {| pod := pod d;
         container_logs := container_logs d;
         pod_metrics :=
           filter (fun r => sameKey (RNamespace r) (RPodName r) ns n = false)
                  (pod_metrics d);
         prometheus_pod_metric := prometheus_pod_metric d |}
  | UpsertPod row =>
      {| pod := upsert (fun a b => sameKey (Namespace a) (Name a)
                                           (Namespace b) (Name b)) row (pod d);
         container_logs := container_logs d;
         pod_metrics := pod_metrics d;
         prometheus_pod_metric := prometheus_pod_metric d |}
  | UpsertContainerLogs row =>
      {| pod := pod d;
         container_logs :=
           upsert (fun a b => sameKey (LNamespace a) (LPodName a)
                                      (LNamespace b) (LPodName b)
                              && bool_decide (LContainerName a = LContainerName b))
                  row (container_logs d);
         pod_metrics := pod_metrics d;
         prometheus_pod_metric := prometheus_pod_metric d |}
  | UpsertPodMetrics row =>
      {| pod := pod d;
         container_logs := container_logs d;
         pod_metrics :=
           upsert (fun a b => sameKey (RNamespace a) (RPodName a)
                                      (RNamespace b) (RPodName b)
                              && bool_decide (RContainerName a = RContainerName b))
                  row (pod_metrics d);
         prometheus_pod_metric := prometheus_pod_metric d |}
  end.

(** *** The world [Sync] runs in

    Every call that leaves the process (a store statement or an API
    request) is logged with its result.  Whether a call fails is read off
    a script, one entry per call in program order; once the script is
    used up, calls succeed. *)
Inductive Call :=
| Exec (s : Stmt)
| GetLogsStream (namespace pod container : string)
| ReadAll
| PodMetricsesGet (namespace name : string).

Record State := {
  db : DB;
  faults : list (option error);
  calls : list (Call * option error)
}.

(** What the API would answer, and the missing mapping
    [schemav1.NewPodFromK8s], taken as given. *)
Record Env := {
  NewPodFromK8s : K8sPod -> Pod * option error;
  logsOf : string -> string -> string -> string;
  metricsOf : string -> string -> PodMetricsObj
}.

(** State passing with panics: [None] is a Go panic. *)
Definition M (A : Type) : Type := State -> option A * State.

Definition ret {A} (a : A) : M A := fun st => (Some a, st).
Definition panic {A} : M A := fun st => (None, st).
Definition bind {A B} (m : M A) (k : A -> M B) : M B :=
  fun st => match m st with
            | (Some a, st') => k a st'
            | (None, st') => (None, st')
            end.

Declare Scope go_scope.
Delimit Scope go_scope with go.
Notation "'do' x <- m ; k" := (bind m (fun x => k))
  (at level 10, x name, m at level 100, k at level 200) : go_scope.
Notation "'do' ' p <- m ; k" := (bind m (fun x => let 'p := x in k))
  (at level 10, p pattern, m at level 100, k at level 200) : go_scope.
Local Open Scope go_scope.

(** One call to the outside: take the next entry of the script, log it. *)
Definition call (c : Call) (onSuccess : DB -> DB) : M (option error) :=
  fun st =>
    let '(f, rest) := match faults st with
                      | [] => (None, [])
                      | f :: rest => (f, rest)
                      end in
    (Some f,
     {| db := match f with None => onSuccess (db st) | Some _ => db st end;
        faults := rest;
        calls := calls st ++ [(c, f)] |}).

(** [p.db.Exec] and [p.db.NamedExecContext]. *)
Definition dbExec (s : Stmt) : M (option error) := call (Exec s) (execStmt s).

(** [cache.SplitMetaNamespaceKey] of client-go, over [strings.Split]. *)
Fixpoint Split (s : string) : list string :=
  match s with
  | EmptyString => [EmptyString]
  | String c s' =>
      if Ascii.eqb c "/" then EmptyString :: Split s'
      else match Split s' with
           | h :: t => String c h :: t
           | [] => [String c EmptyString]
           end
  end.

Definition SplitMetaNamespaceKey (key : string) : string * string * option error :=
  match Split key with
  | [n] => ("", n, None)
  | [ns; n] => (ns, n, None)
  | _ => ("", "", Some (Err "unexpected key format"))
  end.

Section PodSync.
Variable env : Env.

(** [MetricsV1beta1().PodMetricses(ns).Get(ctx, name, opts)]. *)
Definition PodMetricsesGet_ (ns name : string) : M (PodMetricsObj * option error) :=
  do e <- call (PodMetricsesGet ns name) id ;
  match e with
  | Some _ => ret (emptyPodMetrics, e)
  | None => ret (metricsOf env ns name, None)
  end.

Definition GetPodMetrics (pod : K8sPod)
  : M ((Z * Z) * (Z * Z) * (Z * Z) * (Z * Z) * option error) :=
  do '(podMetrics, e) <- PodMetricsesGet_ (PodNamespace pod) (PodName pod) ;
  match e with
  | Some _ => ret ((0, 1), (0, 1), (0, 1), (0, 1), e)
  | None =>
      (* each container overwrites the values of the one before *)
      ret (fold_left
             (fun _ container =>
                ((UsageCPU container, 1000),
                 (UsageMemory container, 1024 * 1024),
                 (UsageStorage container, 1024 * 1024),
                 (UsageEphemeralStorage container, 1024 * 1024),
                 None))
             (MContainers podMetrics)
             ((0, 1), (0, 1), (0, 1), (0, 1), None))
  end.

Definition syncContainerLogs (pod : K8sPod) (container : string)
  : M (option error) :=
  do e <- call (GetLogsStream (PodNamespace pod) (PodName pod) container) id ;
  match e with
  | Some _ => ret e
  | None =>
      do e <- call ReadAll id ;
      match e with
      | Some _ => ret e
      | None =>
          let containerLog :=
            {| LContainerName := container;
               LPodName := PodName pod;
               LNamespace := PodNamespace pod;
               Logs := logsOf env (PodNamespace pod) (PodName pod) container |} in
          do e <- dbExec (UpsertContainerLogs containerLog) ;
          match e with
          | Some _ => ret e
          | None => ret None
          end
      end
  end.

Definition syncPodMetrics (pod : K8sPod) (containerMetrics : ContainerMetrics)
  : M (option error) :=
  do '(metrics, e) <- PodMetricsesGet_ (PodNamespace pod) (PodName pod) ;
  match e with
  | Some _ => ret e
  | None =>
      do '(cpuUsage, memoryUsage, storageUsage, ephemeralStorageUsage, e) <-
        GetPodMetrics pod ;
      match e with
      | Some _ => ret e
      | None =>
          let podMetrics :=
            {| RNamespace := PodNamespace pod;
               RPodName := PodName pod;
               RContainerName := CName containerMetrics;
               RTimestamp := MTimestamp metrics;
               RDuration := MWindow metrics;
               CPUUsage := cpuUsage;
               MemoryUsage := memoryUsage;
               StorageUsage := storageUsage;
               EphemeralStorageUsage := ephemeralStorageUsage |} in
          do e <- dbExec (UpsertPodMetrics podMetrics) ;
          match e with
          | Some _ => ret e
          | None => ret None
          end
      end
  end.

(** [for _, x := range xs { if err := f(x); err != nil { return err } }];
    the result is the error returned from inside the loop, if any. *)
Fixpoint forEach {A} (f : A -> M (option error)) (xs : list A)
  : M (option error) :=
  match xs with
  | [] => ret None
  | x :: xs' =>
      do e <- f x ;
      match e with
      | Some _ => ret e
      | None => forEach f xs'
      end
  end.

Definition Sync (key : string) (obj : Object) (exists_ : bool)
  : M (option error) :=
  if negb exists_ then
    let '(namespace, name, e) := SplitMetaNamespaceKey key in
    match e with
    | Some _ => ret e
    | None =>
        do e <- dbExec (DeleteFromPod namespace name) ;
        match e with
        | Some _ => ret e
        | None =>
            do e <- dbExec (DeleteFromContainerLogs namespace name) ;
            match e with
            | Some _ => ret e
            | None =>
                do e <- dbExec (DeleteFromPodMetrics namespace name) ;
                match e with
                | Some _ => ret e
                | None => ret None
                end
            end
        end
    end
  else
    match obj with
    | NotAPod => panic       (* obj.( *corev1.Pod) *)
    | IsPod k8sPod =>
        let '(pod, e) := NewPodFromK8s env k8sPod in
        match e with
        | Some _ => ret e
        | None =>
            do e <- dbExec (UpsertPod pod) ;
            match e with
            | Some _ => ret e
            | None =>
                do e <- forEach (syncContainerLogs k8sPod) (Containers k8sPod) ;
                match e with
                | Some _ => ret e
                | None =>
                    (* the error of this call is assigned and not read *)
                    do '(podMetrics, _) <-
                      PodMetricsesGet_ (Namespace pod) (Name pod) ;
                    do e <- forEach (syncPodMetrics k8sPod)
                                 (MContainers podMetrics) ;
                    match e with
                    | Some _ => ret e
                    | None => ret None
                    end
                end
            end
        end
    end.
End PodSync.

(** The statements a run sent to the store, in order. *)
Definition stmtsOf (cs : list (Call * option error)) : list Stmt :=
  omap (fun c => match c.1 with Exec s => Some s | _ => None end) cs.

Definition isChildDelete (s : Stmt) : bool :=
  match s with
  | DeleteFromContainerLogs _ _ | DeleteFromPodMetrics _ _ => true
  | _ => false
  end.

Definition isParentDelete (s : Stmt) : bool :=
  match s with DeleteFromPod _ _ => true | _ => false end.

(** No delete on a child table comes after the delete on [pod]. *)
Fixpoint childrenBeforeParent (ss : list Stmt) : bool :=
  match ss with
  | [] => true
  | s :: ss' =>
      (if isParentDelete s then negb (existsb isChildDelete ss') else true)
      && childrenBeforeParent ss'
  end.

(** No table holds a row for the pod [namespace/name]. *)
Definition noRowFor (ns n : string) (d : DB) : Prop :=
  (forall r, r ∈ pod d -> ~ (Namespace r = ns /\ Name r = n))
  /\ (forall r, r ∈ container_logs d -> ~ (LNamespace r = ns /\ LPodName r = n))
  /\ (forall r, r ∈ pod_metrics d -> ~ (RNamespace r = ns /\ RPodName r = n)).

(** The telemetry table holds no row of the pod [namespace/name]. *)
Definition noTelemetryFor (ns n : string) (d : DB) : Prop :=
  forall m, m ∈ prometheus_pod_metric d ->
            metrics.Id m <> sha1.Sum (bytes (ns ++ "/" ++ n)).

(** Some call of the run came back with an error. *)
Definition someCallFailed (cs : list (Call * option error)) : bool :=
  existsb (fun c => match c.2 with Some _ => true | None => false end) cs.

(** Every call of the list succeeded. *)
Definition okCalls (cs : list (Call * option error)) : Prop :=
  Forall (fun c => c.2 = None) cs.

(** [m] logs its calls after those already made and does not panic; what
    it hands back and the calls it made satisfy [P]. *)
Definition logs {A} (m : M A) (P : A -> list (Call * option error) -> Prop)
  : Prop :=
  forall st, exists new,
    calls (m st).2 = calls st ++ new
    /\ match (m st).1 with
       | Some a => P a new
       | None => False
       end.

(** An error is handed back exactly when the last call failed with it,
    all calls before having succeeded; none when all calls succeeded. *)
Definition failsLast (e : option error) (new : list (Call * option error))
  : Prop :=
  match e with
  | None => okCalls new
  | Some e => exists pre c, new = pre ++ [(c, Some e)] /\ okCalls pre
  end.

Definition tracks {A} (m : M A) (errOf : A -> option error) : Prop :=
  logs m (fun a new => failsLast (errOf a) new).

(** What an upsert may hand back: an error is that of the last call made;
    nil means that every call succeeded, or that the one call that failed
    is the pod-metrics request for [ns/n], made last. *)
Definition dropsOnlyPodMetricsError (ns n : string) (r : option error)
           (new : list (Call * option error)) : Prop :=
  match r with
  | Some e => failsLast (Some e) new
  | None =>
      okCalls new
      \/ exists pre e,
          new = pre ++ [(PodMetricsesGet ns n, Some e)] /\ okCalls pre
  end.

(** The next [k] calls succeed. *)
Definition succeed (k : nat) (st : State) : Prop :=
  Forall (fun f => f = None) (take k (faults st)).

End controller.

Module controller_samples.
Import controller.

Definition web1 : K8sPod :=
  {| PodName := "web-1"; PodNamespace := "default"; Containers := ["app"] |}.

Definition env0 : Env :=
  {| NewPodFromK8s := fun p =>
       ({| Name := PodName p; Namespace := PodNamespace p;
           Uid := "uid-1"; Phase := "running" |}, None);
     logsOf := fun _ _ _ => "started";
     metricsOf := fun _ _ =>
       {| MContainers :=
            [ {| CName := "app"; UsageCPU := 250; UsageMemory := 1048576;
                 UsageStorage := 0; UsageEphemeralStorage := 0 |} ];
          MTimestamp := 1700000000000;
          MWindow := 30 |} |}.

Definition podRow (ns n : string) : Pod :=
  {| Name := n; Namespace := ns; Uid := "uid-1"; Phase := "running" |}.

Definition logRow (ns n c : string) : ContainerLog :=
  {| LContainerName := c; LPodName := n; LNamespace := ns; Logs := "started" |}.

Definition metricsRow (ns n c : string) : PodMetrics :=
  {| RNamespace := ns; RPodName := n; RContainerName := c;
     RTimestamp := 1700000000000; RDuration := 30;
     CPUUsage := (250, 1000); MemoryUsage := (1048576, 1024 * 1024);
     StorageUsage := (0, 1024 * 1024);
     EphemeralStorageUsage := (0, 1024 * 1024) |}.

(** A store that mirrors the pods [default/web-1] and [default/db-0]. *)
Definition db0 : DB :=
  {| pod := [podRow "default" "web-1"; podRow "default" "db-0"];
     container_logs := [logRow "default" "web-1" "app"; logRow "default" "db-0" "pg"];
     pod_metrics := [metricsRow "default" "web-1" "app"];
     prometheus_pod_metric := [] |}.

(** The telemetry row a pod poller sends for the pod [default/web-1], and
    the same store holding it. *)
Definition telemetryRow : metrics.PrometheusMetric :=
  {| metrics.Id := sha1.Sum (bytes "default/web-1");
     metrics.Timestamp_ := 1699999980000;
     metrics.Category := "cpu.usage.cores";
     metrics.Name := "";
     metrics.Value_ := samples.one |}.

Definition db1 : DB :=
  {| pod := pod db0;
     container_logs := container_logs db0;
     pod_metrics := pod_metrics db0;
     prometheus_pod_metric := [telemetryRow] |}.

Definition start (d : DB) (script : list (option error)) : State :=
  {| db := d; faults := script; calls := [] |}.

Definition unavailable : error := Err "the server is currently unable to handle the request".

End controller_samples.

(** ** pkg/schema/v1: the PersistentVolumeClaim entity *)
Module v1.

(** [types.Binary]. *)
Definition Binary := list Z.

(** *** The orchestrator's object ([kcorev1.PersistentVolumeClaim]) *)
Record PersistentVolumeClaimCondition := {
  CType : string;
  CStatus : string;
  LastProbeTime : Z;
  LastTransitionTime : Z;
  CReason : string;
  CMessage : string
}.

Record PersistentVolumeClaim := {
  ObjNamespace : string;
  ObjName : string;
  ObjLabels : gmap string string;
  SpecVolumeName : string;
  SpecVolumeMode : option string;          (* *PersistentVolumeMode *)
  SpecStorageClassName : option string;    (* *string *)
  StatusPhase : string;
  StatusConditions : list PersistentVolumeClaimCondition
}.

(** The [kmetav1.Object] handed to [Obtain]. *)
Inductive Object :=
| IsPvc (pvc : PersistentVolumeClaim)
| NotAPvc.

(** *** The entity and its dependent rows *)

(** Modelled from the spec: the embedded [Meta] struct and its
    [ObtainMeta] are not part of the excerpt; a primary entity carries
    the [namespace] and [name] of its object. *)
Record Meta := {
  Namespace : string;
  Name : string
}.

Definition ObtainMeta (k8s : Object) (m : Meta) : Meta :=
  match k8s with
  | IsPvc pvc => {| Namespace := ObjNamespace pvc; Name := ObjName pvc |}
  | NotAPvc => m
  end.

Record PvcCondition := {
  PvcId : Binary;
  Type_ : string;
  Status : string;
  LastProbe : Z;
  LastTransition : Z;
  Reason : string;
  Message : string
}.

Record Label := {
  LabelId_ : Binary;       (* Label.Id *)
  LabelName : string;      (* Label.Name *)
  LabelValue : string      (* Label.Value *)
}.

Record PvcLabel := {
  LPvcId : Binary;         (* PvcLabel.PvcId *)
  LabelId : Binary
}.

Record Pvc := {
  Meta_ : Meta;
  Id : Binary;
  Phase : string;
  VolumeName : string;
  VolumeMode : string;
  StorageClass : string;
  Conditions : list PvcCondition;
  Labels : list Label;
  PvcLabels : list PvcLabel
}.

(** [NewPvc]: [&Pvc{}], every field at its zero value. *)
Definition NewPvc : Pvc :=
  {| Meta_ := {| Namespace := ""; Name := "" |};
     Id := []; Phase := ""; VolumeName := ""; VolumeMode := "";
     StorageClass := ""; Conditions := []; Labels := []; PvcLabels := [] |}.

Global Instance PvcCondition_eq_dec : EqDecision PvcCondition.
Proof. solve_decision. Defined.
Global Instance Label_eq_dec : EqDecision Label.
Proof. solve_decision. Defined.
Global Instance PvcLabel_eq_dec : EqDecision PvcLabel.
Proof. solve_decision. Defined.

Section Mapping.
(** [strcase.Snake], [strings.ToLower] and [types.Checksum] live
    outside the excerpt and are taken as given. *)
Variable Snake : string -> string.
Variable ToLower : string -> string.
Variable Checksum : string -> Binary.

(** [range pvc.Labels] visits the entries of a Go map in an order the
    language leaves open: [visit] is the order of one run. *)
Definition visits (pvc : PersistentVolumeClaim)
           (visit : list (string * string)) : Prop :=
  visit ≡ₚ map_to_list (ObjLabels pvc).

(** [Obtain] mutates its receiver [p]; [None] is a panic. *)
Definition Obtain (visit : list (string * string)) (p : Pvc) (k8s : Object)
  : option Pvc :=
  let meta := ObtainMeta k8s (Meta_ p) in
  match k8s with
  | NotAPvc => None                      (* k8s.( *PersistentVolumeClaim) *)
  | IsPvc pvc =>
      let id := Checksum (ObjNamespace pvc ++ "/" ++ ObjName pvc) in
      let phase := Snake (StatusPhase pvc) in
      let volumeName := SpecVolumeName pvc in
      let volumeMode :=
        match SpecVolumeMode pvc with
        | Some m => m
        | None => VolumeMode p
        end in
      (* the second test reads VolumeMode again, then dereferences
         StorageClassName *)
      let storageClass :=
        match SpecVolumeMode pvc with
        | Some _ =>
            match SpecStorageClassName pvc with
            | Some sc => Some sc
            | None => None               (* nil pointer dereference *)
            end
        | None => Some (StorageClass p)
        end in
      match storageClass with
      | None => None
      | Some storageClass =>
          let conditions :=
            Conditions p ++
            map (fun condition =>
                   {| PvcId := id;
                      Type_ := Snake (CType condition);
                      Status := CStatus condition;
                      LastProbe := LastProbeTime condition;
                      LastTransition := LastTransitionTime condition;
                      Reason := CReason condition;
                      Message := CMessage condition |})
                (StatusConditions pvc) in
          let labelId (l : string * string) :=
            Checksum (ToLower (l.1 ++ ":" ++ l.2)) in
          let labels :=
            Labels p ++
            map (fun l => {| LabelId_ := labelId l;
                             LabelName := l.1;
                             LabelValue := l.2 |}) visit in
          let pvcLabels :=
            PvcLabels p ++
            map (fun l => {| LPvcId := id; LabelId := labelId l |}) visit in
          Some {| Meta_ := meta; Id := id; Phase := phase;
                  VolumeName := volumeName; VolumeMode := volumeMode;
                  StorageClass := storageClass; Conditions := conditions;
                  Labels := labels; PvcLabels := pvcLabels |}
      end
  end.
End Mapping.

(** *** Relations *)

(** [database.HasMany[T]], one constructor per row type. *)
Inductive Relation :=
| HasManyPvcCondition (Entities : list PvcCondition) (ForeignKey_ : string)
| HasManyLabel (Entities : list Label) (ForeignKey_ : string)
| HasManyPvcLabel (Entities : list PvcLabel) (ForeignKey_ : string).

Definition ForeignKey (r : Relation) : string :=
  match r with
  | HasManyPvcCondition _ fk | HasManyLabel _ fk | HasManyPvcLabel _ fk => fk
  end.

Definition Relations (p : Pvc) : list Relation :=
  [ HasManyPvcCondition (Conditions p) "pvc_id";
    HasManyLabel (Labels p) "value";   (* a hack to not delete any labels *)
    HasManyPvcLabel (PvcLabels p) "pvc_id" ].

(** *** The store behind the relations *)

(** A column holds binary data, text or a time, as the struct field does. *)
Inductive Cell :=
| CBin (b : Binary)
| CStr (s : string)
| CTime (t : Z).

Global Instance Cell_eq_dec : EqDecision Cell.
Proof. solve_decision. Defined.

Definition conditionColumn (c : string) (r : PvcCondition) : option Cell :=
  if decide (c = "pvc_id") then Some (CBin (PvcId r))
  else if decide (c = "type") then Some (CStr (Type_ r))
  else if decide (c = "status") then Some (CStr (Status r))
  else if decide (c = "last_probe") then Some (CTime (LastProbe r))
  else if decide (c = "last_transition") then Some (CTime (LastTransition r))
  else if decide (c = "reason") then Some (CStr (Reason r))
  else if decide (c = "message") then Some (CStr (Message r))
  else None.

Definition labelColumn (c : string) (r : Label) : option Cell :=
  if decide (c = "id") then Some (CBin (LabelId_ r))
  else if decide (c = "name") then Some (CStr (LabelName r))
  else if decide (c = "value") then Some (CStr (LabelValue r))
  else None.

Definition pvcLabelColumn (c : string) (r : PvcLabel) : option Cell :=
  if decide (c = "pvc_id") then Some (CBin (LPvcId r))
  else if decide (c = "label_id") then Some (CBin (LabelId r))
  else None.

Record Store := {
  pvc_condition : list PvcCondition;
  label : list Label;
  pvc_label : list PvcLabel
}.

(** Modelled from the spec: the replace-by-foreign-key step of the
    database layer, which the excerpt does not contain.  For a relation
    it deletes the rows whose foreign-key column holds the identifier of
    the entity, then inserts the current rows that are not there yet. *)
Definition insertRows {A} `{EqDecision A} (rows : list A) (t : list A) : list A :=
  fold_left (fun t r => if decide (r ∈ t) then t else t ++ [r]) rows t.

Definition replaceRows {A} `{EqDecision A}
           (column : string -> A -> option Cell) (fk : string) (id : Binary)
           (rows : list A) (t : list A) : list A :=
  insertRows rows (filter (fun r => column fk r ≠ Some (CBin id)) t).

Definition syncRelation (id : Binary) (r : Relation) (st : Store) : Store :=
  match r with
  | HasManyPvcCondition rows fk =>
      {| pvc_condition := replaceRows conditionColumn fk id rows (pvc_condition st);
         label := label st; pvc_label := pvc_label st |}
  | HasManyLabel rows fk =>
      {| pvc_condition := pvc_condition st;
         label := replaceRows labelColumn fk id rows (label st);
         pvc_label := pvc_label st |}
  | HasManyPvcLabel rows fk =>
      {| pvc_condition := pvc_condition st; label := label st;
         pvc_label := replaceRows pvcLabelColumn fk id rows (pvc_label st) |}
  end.

(** One resync of a PVC: every relation of the entity, in order. *)
Definition resync (p : Pvc) (st : Store) : Store :=
  fold_left (fun st r => syncRelation (Id p) r st) (Relations p) st.

End v1.

Module v1_samples.
Import v1.

Definition sha (s : string) : Binary := sha1.Sum (bytes s).

Definition bound : PersistentVolumeClaimCondition :=
  {| CType := "Resizing"; CStatus := "True";
     LastProbeTime := 1700000000000; LastTransitionTime := 1700000000000;
     CReason := ""; CMessage := "" |}.

(** A claim with two labels, a volume mode and a storage class. *)
Definition dataClaim : PersistentVolumeClaim :=
  {| ObjNamespace := "default"; ObjName := "data";
     ObjLabels := {[ "app" := "web"; "tier" := "db" ]};
     SpecVolumeName := "pv-1";
     SpecVolumeMode := Some "Filesystem";
     SpecStorageClassName := Some "fast";
     StatusPhase := "Bound";
     StatusConditions := [bound] |}.

(** The same claim without a storage class name. *)
Definition claimWithoutClass : PersistentVolumeClaim :=
  {| ObjNamespace := "default"; ObjName := "data";
     ObjLabels := ∅;
     SpecVolumeName := "pv-1";
     SpecVolumeMode := Some "Filesystem";
     SpecStorageClassName := None;
     StatusPhase := "Bound";
     StatusConditions := [] |}.

(** A claim with a storage class name and no volume mode. *)
Definition claimWithoutMode : PersistentVolumeClaim :=
  {| ObjNamespace := "default"; ObjName := "data";
     ObjLabels := ∅;
     SpecVolumeName := "pv-1";
     SpecVolumeMode := None;
     SpecStorageClassName := Some "fast";
     StatusPhase := "Bound";
     StatusConditions := [] |}.

Definition appFirst : list (string * string) := [("app", "web"); ("tier", "db")].
Definition tierFirst : list (string * string) := [("tier", "db"); ("app", "web")].

(** A store that already knows a label and a condition of another claim. *)
Definition store0 : Store :=
  {| pvc_condition :=
       [ {| PvcId := sha "default/other"; Type_ := "resizing"; Status := "True";
            LastProbe := 0; LastTransition := 0; Reason := ""; Message := "" |};
         {| PvcId := sha "default/data"; Type_ := "stale"; Status := "True";
            LastProbe := 0; LastTransition := 0; Reason := ""; Message := "" |} ];
     label := [ {| LabelId_ := sha "env:prod"; LabelName := "env"; LabelValue := "prod" |} ];
     pvc_label := [ {| LPvcId := sha "default/data"; LabelId := sha "env:prod" |} ] |}.

End v1_samples.

(** ** The queries configured in [Run] *)
Module queries.
Import metrics.

(** The double quote, for the selectors inside a query text. *)
Definition dq : string := String (ascii_of_nat 34) EmptyString.

Definition promQueriesCluster : list PromQuery :=
  [ {| metricCategory := "node.count";
       query :=
       "count(group by (node) (kube_node_info))";
       nameLabel := "" |};
    {| metricCategory := "namespace.count";
       query :=
       "count(kube_namespace_created)";
       nameLabel := "" |};
    {| metricCategory := "pod.running";
       query :=
       "sum(kube_pod_status_phase{phase="
       ++ dq ++ "Running"
       ++ dq ++ "})";
       nameLabel := "" |};
    {| metricCategory := "pod.pending";
       query :=
       "sum(kube_pod_status_phase{phase="
       ++ dq ++ "Pending"
       ++ dq ++ "})";
       nameLabel := "" |};
    {| metricCategory := "pod.failed";
       query :=
       "sum(kube_pod_status_phase{phase="
       ++ dq ++ "Failed"
       ++ dq ++ "})";
       nameLabel := "" |};
    {| metricCategory := "pod.succeeded";
       query :=
       "sum(kube_pod_status_phase{phase="
       ++ dq ++ "Succeeded"
       ++ dq ++ "})";
       nameLabel := "" |};
    {| metricCategory := "cpu.usage";
       query :=
       "avg(sum by (instance, cpu) (rate(node_cpu_seconds_total{mode!~"
       ++ dq ++ "idle|iowait|steal"
       ++ dq ++ "}[1m])))";
       nameLabel := "" |};
    {| metricCategory := "memory.usage";
       query :=
       "sum(node_memory_MemTotal_bytes - node_memory_MemAvailable_bytes) / sum(node_memory_MemTotal_bytes)";
       nameLabel := "" |};
    {| metricCategory := "qos_by_class";
       query :=
       "sum by (qos_class) (kube_pod_status_qos_class)";
       nameLabel := "" |};
    {| metricCategory := "network.received.bytes";
       query :=
       "sum by (device) (rate(node_network_receive_bytes_total{device!~"
       ++ dq ++ "(veth|azv|lxc).*"
       ++ dq ++ "}[2m]))";
       nameLabel := "" |};
    {| metricCategory := "network.transmitted.bytes";
       query :=
       "- sum by (device) (rate(node_network_transmit_bytes_total{device!~"
       ++ dq ++ "(veth|azv|lxc).*"
       ++ dq ++ "}[2m]))";
       nameLabel := "" |};
    {| metricCategory := "network.received.bytes.bydevice";
       query :=
       "sum by (device) (rate(node_network_receive_bytes_total{device!~"
       ++ dq ++ "(veth|azv|lxc).*"
       ++ dq ++ "}[2m]))";
       nameLabel := "device" |} ].

Definition promQueriesNode : list PromQuery :=
  [ {| metricCategory := "cpu.usage";
       query :=
       "avg by (instance) (sum by (instance, cpu) (rate(node_cpu_seconds_total{mode!~"
       ++ dq ++ "idle|iowait|steal"
       ++ dq ++ "}[1m])))";
       nameLabel := "" |};
    {| metricCategory := "cpu.request";
       query :=
       "sum by (node) (kube_pod_container_resource_requests{resource="
       ++ dq ++ "cpu"
       ++ dq ++ "})";
       nameLabel := "" |};
    {| metricCategory := "cpu.request.percentage";
       query :=
       "sum by (node) (kube_pod_container_resource_requests{resource="
       ++ dq ++ "cpu"
       ++ dq ++ "}) / on(node) group_left() (sum by (node) (machine_cpu_cores))";
       nameLabel := "" |};
    {| metricCategory := "cpu.limit";
       query :=
       "sum by (node) (kube_pod_container_resource_limits{resource="
       ++ dq ++ "cpu"
       ++ dq ++ "})";
       nameLabel := "" |};
    {| metricCategory := "cpu.limit.percentage";
       query :=
       "sum by (node) (kube_pod_container_resource_limits{resource="
       ++ dq ++ "cpu"
       ++ dq ++ "}) / on(node) group_left() (sum by (node) (machine_cpu_cores))";
       nameLabel := "" |};
    {| metricCategory := "memory.usage";
       query :=
       "sum by (instance) (node_memory_MemTotal_bytes - node_memory_MemAvailable_bytes) / sum by (instance) (node_memory_MemTotal_bytes)";
       nameLabel := "" |};
    {| metricCategory := "memory.request";
       query :=
       "sum by (node) (kube_pod_container_resource_requests{resource="
       ++ dq ++ "memory"
       ++ dq ++ "})";
       nameLabel := "" |};
    {| metricCategory := "memory.request.percentage";
       query :=
       "sum by (node) (kube_pod_container_resource_requests{resource="
       ++ dq ++ "memory"
       ++ dq ++ "}) / on(node) group_left() (sum by (node) (machine_memory_bytes))";
       nameLabel := "" |};
    {| metricCategory := "memory.limit";
       query :=
       "sum by (node) (kube_pod_container_resource_limits{resource="
       ++ dq ++ "memory"
       ++ dq ++ "})";
       nameLabel := "" |};
    {| metricCategory := "memory.limit.percentage";
       query :=
       "sum by (node) (kube_pod_container_resource_limits{resource="
       ++ dq ++ "memory"
       ++ dq ++ "}) / on(node) group_left() (sum by (node) (machine_memory_bytes))";
       nameLabel := "" |};
    {| metricCategory := "network.received.bytes";
       query :=
       "sum by (instance) (rate(node_network_receive_bytes_total[2m]))";
       nameLabel := "" |};
    {| metricCategory := "network.transmitted.bytes";
       query :=
       "- sum by (instance) (rate(node_network_transmit_bytes_total[2m]))";
       nameLabel := "" |};
    {| metricCategory := "filesystem.usage";
       query :=
       "sum by (instance, mountpoint) (1 - (node_filesystem_avail_bytes / node_filesystem_size_bytes))";
       nameLabel := "mountpoint" |} ].

Definition promQueriesPod : list PromQuery :=
  [ {| metricCategory := "cpu.usage";
       query :=
       "sum by (node, namespace, pod) (rate(container_cpu_usage_seconds_total[1m]))";
       nameLabel := "" |};
    {| metricCategory := "memory.usage";
       query :=
       "sum by (node, namespace, pod) (container_memory_usage_bytes) / on (node) group_left(instance) label_replace(node_memory_MemTotal_bytes, "
       ++ dq ++ "node"
       ++ dq ++ ", "
       ++ dq ++ "$1"
       ++ dq ++ ", "
       ++ dq ++ "instance"
       ++ dq ++ ", "
       ++ dq ++ "(.*)"
       ++ dq ++ ")";
       nameLabel := "" |};
    {| metricCategory := "cpu.usage.cores";
       query :=
       "sum by (namespace, pod) (rate(container_cpu_usage_seconds_total[1m]))";
       nameLabel := "" |};
    {| metricCategory := "memory.usage.bytes";
       query :=
       "sum by (namespace, pod) (container_memory_usage_bytes)";
       nameLabel := "" |};
    {| metricCategory := "cpu.request";
       query :=
       "sum by (node, namespace, pod) (kube_pod_container_resource_requests{resource="
       ++ dq ++ "cpu"
       ++ dq ++ "})";
       nameLabel := "" |};
    {| metricCategory := "cpu.request.percentage";
       query :=
       "sum by (node, namespace, pod) (kube_pod_container_resource_requests{resource="
       ++ dq ++ "cpu"
       ++ dq ++ "}) / on(node) group_left() (sum by (node) (machine_cpu_cores))";
       nameLabel := "" |};
    {| metricCategory := "cpu.limit";
       query :=
       "sum by (node, namespace, pod) (kube_pod_container_resource_limits{resource="
       ++ dq ++ "cpu"
       ++ dq ++ "})";
       nameLabel := "" |};
    {| metricCategory := "cpu.limit.percentage";
       query :=
       "sum by (node, namespace, pod) (kube_pod_container_resource_limits{resource="
       ++ dq ++ "cpu"
       ++ dq ++ "}) / on(node) group_left() (sum by (node) (machine_cpu_cores))";
       nameLabel := "" |};
    {| metricCategory := "memory.request";
       query :=
       "sum by (node, namespace, pod) (kube_pod_container_resource_requests{resource="
       ++ dq ++ "memory"
       ++ dq ++ "})";
       nameLabel := "" |};
    {| metricCategory := "memory.request.percentage";
       query :=
       "sum by (node, namespace, pod) (kube_pod_container_resource_requests{resource="
       ++ dq ++ "memory"
       ++ dq ++ "}) / on(node) group_left() (sum by (node) (machine_memory_bytes))";
       nameLabel := "" |};
    {| metricCategory := "memory.limit";
       query :=
       "sum by (node, namespace, pod) (kube_pod_container_resource_limits{resource="
       ++ dq ++ "memory"
       ++ dq ++ "})";
       nameLabel := "" |};
    {| metricCategory := "memory.limit.percentage";
       query :=
       "sum by (node, namespace, pod) (kube_pod_container_resource_limits{resource="
       ++ dq ++ "memory"
       ++ dq ++ "}) / on(node) group_left() (sum by (node) (machine_memory_bytes))";
       nameLabel := "" |} ].

Definition promQueriesContainer : list PromQuery :=
  [ {| metricCategory := "cpu.request";
       query :=
       "sum by (node, namespace, pod, container) (kube_pod_container_resource_requests{resource="
       ++ dq ++ "cpu"
       ++ dq ++ "})";
       nameLabel := "" |};
    {| metricCategory := "cpu.request.percentage";
       query :=
       "sum by (node, namespace, pod, container) (kube_pod_container_resource_requests{resource="
       ++ dq ++ "cpu"
       ++ dq ++ "}) / on(node) group_left() (sum by (node) (machine_cpu_cores))";
       nameLabel := "" |};
    {| metricCategory := "cpu.limit";
       query :=
       "sum by (node, namespace, pod, container) (kube_pod_container_resource_limits{resource="
       ++ dq ++ "cpu"
       ++ dq ++ "})";
       nameLabel := "" |};
    {| metricCategory := "cpu.limit.percentage";
       query :=
       "sum by (node, namespace, pod, container) (kube_pod_container_resource_limits{resource="
       ++ dq ++ "cpu"
       ++ dq ++ "}) / on(node) group_left() (sum by (node) (machine_cpu_cores))";
       nameLabel := "" |};
    {| metricCategory := "memory.request";
       query :=
       "sum by (node, namespace, pod, container) (kube_pod_container_resource_requests{resource="
       ++ dq ++ "memory"
       ++ dq ++ "})";
       nameLabel := "" |};
    {| metricCategory := "memory.request.percentage";
       query :=
       "sum by (node, namespace, pod, container) (kube_pod_container_resource_requests{resource="
       ++ dq ++ "memory"
       ++ dq ++ "}) / on(node) group_left() (sum by (node) (machine_memory_bytes))";
       nameLabel := "" |};
    {| metricCategory := "memory.limit";
       query :=
       "sum by (node, namespace, pod, container) (kube_pod_container_resource_limits{resource="
       ++ dq ++ "memory"
       ++ dq ++ "})";
       nameLabel := "" |};
    {| metricCategory := "memory.limit.percentage";
       query :=
       "sum by (node, namespace, pod, container) (kube_pod_container_resource_limits{resource="
       ++ dq ++ "memory"
       ++ dq ++ "}) / on(node) group_left() (sum by (node) (machine_memory_bytes))";
       nameLabel := "" |} ].

(** The poller tasks [Run] starts, one per query, in the order of the
    four [for ... range] loops. *)
Definition pollers : list (Granularity * PromQuery) :=
  map (pair Cluster) promQueriesCluster
  ++ map (pair Node) promQueriesNode
  ++ map (pair Pod) promQueriesPod
  ++ map (pair Container) promQueriesContainer.

Global Instance Granularity_eq_dec : EqDecision Granularity.
Proof. solve_decision. Defined.

(** The granularity and category under which a poller writes. *)
Definition pollerKey (p : Granularity * PromQuery) : Granularity * string :=
  (p.1, metricCategory p.2).

End queries.

(** ** Notions used to describe the pollers *)
Module metrics_aux.
Import metrics.

(** What every record of a task has in common. *)
Definition taskRecord (g : Granularity) (q : PromQuery) (ev : Event) : Prop :=
  match ev with
  | EvSend g' m =>
      g' = g /\ Category m = metricCategory q
      /\ length (Id m) = 20%nat
      /\ (60000 | Timestamp_ m)
      /\ (nameLabel q = "" -> Name m = "")
      /\ isNaN (Value_ m) = false
  | _ => True
  end.

(** The backend answered: no error, and a vector or a nil result. *)
Definition answers (r : QueryResponse) : Prop :=
  err r = None /\ result r <> Some NotVector.

(** The number of queries a trace holds. *)
Definition countQueries (tr : list Event) : nat :=
  length (List.filter isQuery tr).

(** The query [qos_by_class], which sums by [qos_class] and has no name
    label, and two series of one answer to it. *)
Definition qosByClass : PromQuery :=
  {| metricCategory := "qos_by_class";
     query := "sum by (qos_class) (kube_pod_status_qos_class)";
     nameLabel := "" |}.

Definition qosSeries (class : string) (v : spec_float) : Sample :=
  {| Metric := {[ "qos_class" := class ]}; Value := v;
     Timestamp := 1700000012345 |}.

Definition byDevice : PromQuery :=
  {| metricCategory := "network.received.bytes.bydevice";
     query := "sum by (device) (rate(node_network_receive_bytes_total{device!~"
              ++ queries.dq ++ "(veth|azv|lxc).*" ++ queries.dq ++ "}[2m]))";
     nameLabel := "device" |}.

Definition deviceSeries (device : string) : Sample :=
  {| Metric := {[ "device" := device ]}; Value := samples.one;
     Timestamp := 1700000012345 |}.

End metrics_aux.

(** ** Notions used to describe the pod controller *)
Module controller_aux.
Import controller.

(** The four usages [GetPodMetrics] hands back for a list of containers:
    those of the last container, or zero when there is none. *)
Definition lastUsage (cs : list ContainerMetrics)
  : (Z * Z) * (Z * Z) * (Z * Z) * (Z * Z) :=
  match last cs with
  | Some container =>
      ((UsageCPU container, 1000),
       (UsageMemory container, 1024 * 1024),
       (UsageStorage container, 1024 * 1024),
       (UsageEphemeralStorage container, 1024 * 1024))
  | None => ((0, 1), (0, 1), (0, 1), (0, 1))
  end.

Definition usagesOf (row : PodMetrics) : (Z * Z) * (Z * Z) * (Z * Z) * (Z * Z) :=
  (CPUUsage row, MemoryUsage row, StorageUsage row, EphemeralStorageUsage row).

(** [d'] holds no row that [d] does not hold, and every row of [d] that
    does not belong to the pod [ns/n]. *)
Definition removesOnly (ns n : string) (d d' : DB) : Prop :=
  (forall r, r ∈ pod d' -> r ∈ pod d)
  /\ (forall r, r ∈ container_logs d' -> r ∈ container_logs d)
  /\ (forall r, r ∈ pod_metrics d' -> r ∈ pod_metrics d)
  /\ (forall r, r ∈ pod d -> ~ (Namespace r = ns /\ Name r = n) -> r ∈ pod d')
  /\ (forall r, r ∈ container_logs d ->
                ~ (LNamespace r = ns /\ LPodName r = n) -> r ∈ container_logs d')
  /\ (forall r, r ∈ pod_metrics d ->
                ~ (RNamespace r = ns /\ RPodName r = n) -> r ∈ pod_metrics d').

(** The log row [syncContainerLogs] writes for a container, and the
    metrics row [syncPodMetrics] writes for a reported container. *)
Definition logRowOf (env : Env) (k8sPod : K8sPod) (container : string)
  : ContainerLog :=
  {| LContainerName := container;
     LPodName := PodName k8sPod;
     LNamespace := PodNamespace k8sPod;
     Logs := logsOf env (PodNamespace k8sPod) (PodName k8sPod) container |}.

Definition metricsRowOf (env : Env) (k8sPod : K8sPod) (cm : ContainerMetrics)
  : PodMetrics :=
  let metrics := metricsOf env (PodNamespace k8sPod) (PodName k8sPod) in
  let '(cpu, mem, sto, eph) := lastUsage (MContainers metrics) in
  {| RNamespace := PodNamespace k8sPod;
     RPodName := PodName k8sPod;
     RContainerName := CName cm;
     RTimestamp := MTimestamp metrics;
     RDuration := MWindow metrics;
     CPUUsage := cpu;
     MemoryUsage := mem;
     StorageUsage := sto;
     EphemeralStorageUsage := eph |}.

(** The calls of [syncContainerLogs] and of [syncPodMetrics] when all of
    them succeed. *)
Definition logCalls (env : Env) (k8sPod : K8sPod) (container : string)
  : list (Call * option error) :=
  [ (GetLogsStream (PodNamespace k8sPod) (PodName k8sPod) container, None);
    (ReadAll, None);
    (Exec (UpsertContainerLogs (logRowOf env k8sPod container)), None) ].

Definition metricsCalls (env : Env) (k8sPod : K8sPod) (cm : ContainerMetrics)
  : list (Call * option error) :=
  [ (PodMetricsesGet (PodNamespace k8sPod) (PodName k8sPod), None);
    (PodMetricsesGet (PodNamespace k8sPod) (PodName k8sPod), None);
    (Exec (UpsertPodMetrics (metricsRowOf env k8sPod cm)), None) ].

(** The pod-metrics requests among the calls of a run. *)
Definition metricsRequests (cs : list (Call * option error)) : nat :=
  length (List.filter (fun c => match c.1 with
                                | PodMetricsesGet _ _ => true
                                | _ => false
                                end) cs).

(** With every call succeeding, [m] returns nil after making the calls
    [cl], which send the statements [ss] to the store. *)
Definition runsOk (m : M (option error)) (cl : list (Call * option error))
           (ss : list Stmt) : Prop :=
  forall st, faults st = [] ->
    m st = (Some None,
            {| db := fold_left (fun d s => execStmt s d) ss (db st);
               faults := [];
               calls := calls st ++ cl |}).

(** The string holds no slash, as the names of Kubernetes objects do. *)
Fixpoint noSlash (s : string) : bool :=
  match s with
  | EmptyString => true
  | String c s' => negb (Ascii.eqb c "/") && noSlash s'
  end.

(** A pod whose metrics report two containers. *)
Definition twoContainers : PodMetricsObj :=
  {| MContainers :=
       [ {| CName := "app"; UsageCPU := 250; UsageMemory := 1048576;
            UsageStorage := 0; UsageEphemeralStorage := 0 |};
         {| CName := "sidecar"; UsageCPU := 10; UsageMemory := 2097152;
            UsageStorage := 0; UsageEphemeralStorage := 0 |} ];
     MTimestamp := 1700000000000;
     MWindow := 30 |}.

Definition env2 : Env :=
  {| NewPodFromK8s := NewPodFromK8s controller_samples.env0;
     logsOf := logsOf controller_samples.env0;
     metricsOf := fun _ _ => twoContainers |}.

End controller_aux.

(** ** pkg/types: identity and hashing *)
Module types.

(** Modelled from the spec: [types.Checksum], which the entity mapping
    calls, is not part of the excerpt.  The specification has one Identity
    and Hashing component, used by the entity mapping and by the metric
    pollers alike, that turns a natural key into a fixed-width identifier
    with a cryptographic or near-cryptographic hash; the pollers, which are
    in the excerpt, realise it as the SHA-1 digest of the key's bytes, and
    so does this definition. *)
Definition Checksum (data : string) : list Z := sha1.Sum (bytes data).


End types.

(** * Properties *)

Example sha1_empty :
  sha1.Sum (bytes "") =
  [218; 57; 163; 238; 94; 107; 75; 13; 50; 85;
   191; 239; 149; 96; 24; 144; 175; 216; 7; 9].
Proof. vm_compute. reflexivity. Qed.

Example sha1_abc :
  sha1.Sum (bytes "abc") =
  [169; 153; 62; 54; 71; 6; 129; 106; 186; 62;
   37; 113; 120; 80; 194; 108; 156; 208; 216; 157].
Proof. vm_compute. reflexivity. Qed.

(** A message whose padding spills into a second block. *)
Example sha1_two_blocks :
  sha1.Sum (bytes "abcdbcdecdefdefgefghfghighijhijkijkljklmklmnlmnomnopnopq") =
  [132; 152; 62; 68; 28; 59; 210; 110; 186; 174;
   74; 161; 249; 81; 41; 229; 229; 70; 112; 241].
Proof. vm_compute. reflexivity. Qed.

(** [sha1.Sum] is fixed-width: twenty bytes whatever the input. *)
Lemma sha1_Sum_length data : length (sha1.Sum data) = sha1.Size.
Proof. unfold sha1.Sum. cbv zeta. rewrite !length_app. reflexivity. Qed.

(** ** The metric pollers *)
Module metrics_props.
Import metrics.

(** ** Minute truncation *)

Lemma wrap64_range z : - 2 ^ 63 <= wrap64 z < 2 ^ 63.
Proof. unfold wrap64. pose proof (Z.mod_pos_bound (z + 2 ^ 63) (2 ^ 64)). lia. Qed.

Lemma wrap64_id z : - 2 ^ 63 <= z < 2 ^ 63 -> wrap64 z = z.
Proof. intros H. unfold wrap64. rewrite Z.mod_small; lia. Qed.

(** Subtracting the truncated remainder moves towards zero, so it cannot
    leave the int64 range, and lands on a multiple of the modulus. *)
Lemma sub_rem_quot (a m : Z) :
  0 < m -> a - Z.rem a m = m * Z.quot a m /\ Z.abs (a - Z.rem a m) <= Z.abs a.
Proof.
  intros Hm. pose proof (Z.quot_rem' a m) as E.
  split; [lia|].
  destruct (Z_le_gt_dec 0 a) as [Ha|Ha].
  - pose proof (Z.rem_bound_pos a m Ha Hm).
    pose proof (Z.quot_pos a m Ha Hm). nia.
  - pose proof (Z.rem_bound_pos_neg a m Hm ltac:(lia)).
    pose proof (Z.quot_pos (- a) m ltac:(lia) Hm) as Hq.
    rewrite Z.quot_opp_l in Hq by lia. nia.
Qed.

Lemma minuteMillis_quot t :
  minuteMillis t = 60000 * Z.quot (UnixNano t) 60000000000.
Proof.
  unfold minuteMillis. cbv zeta.
  change (60 * 1000000000) with 60000000000.
  pose proof (wrap64_range (t * 1000000)) as R. fold (UnixNano t) in R.
  destruct (sub_rem_quot (UnixNano t) 60000000000 ltac:(lia)) as [E B].
  rewrite wrap64_id by lia. rewrite E.
  replace (60000000000 * (UnixNano t ÷ 60000000000))
    with (60000 * (UnixNano t ÷ 60000000000) * 1000000) by lia.
  apply Z.quot_mul. lia.
Qed.

(** Whatever the sample time, the stored time is a whole number of
    minutes, in milliseconds. *)
Lemma minuteMillis_multiple t : (60000 | minuteMillis t).
Proof.
  rewrite minuteMillis_quot. exists (UnixNano t ÷ 60000000000). lia.
Qed.

(** From 1970 up to the year 2262 the nanosecond count fits an int64 and
    the truncation is the floor to the minute. *)
Lemma minuteMillis_floor t :
  0 <= t < 9223372036855 -> minuteMillis t = 60000 * (t / 60000).
Proof.
  intros H. rewrite minuteMillis_quot. f_equal.
  unfold UnixNano. rewrite wrap64_id by lia.
  rewrite Z.quot_div_nonneg by lia.
  change 60000000000 with (60000 * 1000000).
  apply Z.div_mul_cancel_r; lia.
Qed.

(** Case analysis on the granularity, down to the body of its loop. *)
Ltac by_granularity g :=
  destruct g; cbn [metricOf];
  unfold clusterMetric, nodeMetric, podMetric, containerMetric.

Lemma metricOf_timestamp g q res m :
  metricOf g q res = Some m -> Timestamp_ m = minuteMillis (Timestamp res).
Proof.
  by_granularity g; repeat case_match; intros [= <-]; reflexivity.
Qed.

(** ** The records of one poll cycle *)

Lemma label_unlabelled t l : label (samples.unlabelled t) l = "".
Proof. unfold label. cbn. rewrite lookup_empty. reflexivity. Qed.

Lemma metricOf_NaN g q res :
  isNaN (Value res) = true -> metricOf g q res = None.
Proof.
  intros H. by_granularity g; rewrite H; reflexivity.
Qed.

(** X2. Which series a loop skips: exactly the NaN ones and, in the pod
    loop only, those with an empty [pod] label. *)
Lemma metricOf_None g q res :
  metricOf g q res = None <->
  isNaN (Value res) = true \/ (g = Pod /\ label res "pod" = "").
Proof.
  by_granularity g; destruct (isNaN (Value res)); try case_decide;
    split; try tauto; try discriminate;
    intros [?|[? ?]]; try discriminate; try contradiction.
Qed.

(** Without cancellation a cycle sends one record per series that is not
    skipped, in the order of the vector. *)
Lemma forEachSeries_uncancelled g q v :
  forEachSeries g q v [] = (EvSend g <$> omap (metricOf g q) v, [], None).
Proof.
  induction v as [|res v IH]; [reflexivity|].
  cbn [forEachSeries omap list_omap]. destruct (metricOf g q res) as [m|].
  - cbn [nextChoice]. rewrite IH. reflexivity.
  - exact IH.
Qed.

Lemma forEachSeries_Forall g q (P : Event -> Prop) :
  (forall res m, metricOf g q res = Some m -> P (EvSend g m)) ->
  forall v sched, Forall P (forEachSeries g q v sched).1.1.
Proof.
  intros HP. induction v as [|res v IH]; intros sched; [constructor|].
  cbn [forEachSeries]. destruct (metricOf g q res) as [m|] eqn:E; [|apply IH].
  destruct (nextChoice sched) as [[|] sched']; [|constructor].
  specialize (IH sched').
  destruct (forEachSeries g q v sched') as [[evs s''] r]. cbn in *.
  constructor; eauto.
Qed.

Lemma pollLoop_Forall g q (P : Event -> Prop) :
  (forall s, P (EvQuery s)) -> (forall s, P (EvPrint s)) ->
  (forall z, P (EvWait z)) ->
  (forall res m, metricOf g q res = Some m -> P (EvSend g m)) ->
  forall script sched, Forall P (pollLoop g q script sched).1.
Proof.
  intros HQ HPr HW HS. induction script as [|r script IH]; intros sched;
    [constructor|].
  cbn [pollLoop].
  assert (Hw : Forall P (printWarnings (warnings r))).
  { unfold printWarnings. destruct (warnings r); repeat constructor; auto. }
  destruct (err r) as [e|]; [repeat constructor; auto|].
  destruct (result r) as [[v|]|].
  - pose proof (forEachSeries_Forall g q P HS v sched) as Hs.
    destruct (forEachSeries g q v sched) as [[sent sched'] [e|]]; cbn in Hs.
    + cbn. constructor; auto. apply Forall_app; auto.
    + destruct (nextChoice sched') as [[|] sched''].
      * specialize (IH sched'').
        destruct (pollLoop g q script sched'') as [evs ex]. cbn in *.
        constructor; auto. apply Forall_app; split; auto.
        apply Forall_app; split; auto.
      * cbn. constructor; auto. apply Forall_app; auto.
  - cbn. constructor; auto. rewrite app_nil_r. exact Hw.
  - specialize (IH sched).
    destruct (pollLoop g q script sched) as [evs ex]. cbn in *.
    constructor; auto. apply Forall_app; split; auto.
Qed.

(** ** Waiting between queries *)

Lemma waitedBetween_quiet_cons ev tr :
  quietHead tr -> waitedBetween (ev :: tr) = waitedBetween tr.
Proof. destruct tr as [|[] tr]; cbn; intros H; try reflexivity; discriminate. Qed.

Lemma quietHead_app l tr :
  Forall (fun ev => isQuery ev = false) l -> quietHead tr -> quietHead (l ++ tr).
Proof. intros [|ev l' H _] Ht; [exact Ht|exact H]. Qed.

Lemma waitedBetween_skip l tr :
  Forall (fun ev => isQuery ev = false) l -> quietHead tr ->
  waitedBetween (l ++ tr) = waitedBetween tr.
Proof.
  induction 1 as [|ev l Hev Hl IH]; intros Ht; [reflexivity|].
  cbn [app]. rewrite waitedBetween_quiet_cons by (apply quietHead_app; assumption).
  apply IH, Ht.
Qed.

Lemma waitedBetween_after_wait tr :
  waitedBetween (EvWait 55 :: tr) = waitedBetween tr.
Proof. destruct tr as [|[] tr]; reflexivity. Qed.

Lemma printWarnings_quiet ws :
  Forall (fun ev => isQuery ev = false) (printWarnings ws).
Proof. destruct ws; repeat constructor. Qed.

(** X7. An iteration that gets a vector, even an empty one, and is not
    cancelled ends in the 55 second wait: as long as no response is nil,
    every query but the first directly follows a wait. *)
Lemma vector_iterations_wait g q script :
  Forall (fun r => result r <> None) script ->
  forall sched, waitedBetween (pollLoop g q script sched).1 = true.
Proof.
  induction 1 as [|r script Hr Hs IH]; intros sched; [reflexivity|].
  cbn [pollLoop].
  pose proof (printWarnings_quiet (warnings r)) as Hw.
  destruct (err r) as [e|]; [reflexivity|].
  destruct (result r) as [[v|]|]; [| |contradiction].
  - pose proof (forEachSeries_Forall g q (fun ev => isQuery ev = false)
                  ltac:(reflexivity) v sched) as Hsent.
    destruct (forEachSeries g q v sched) as [[sent sched'] [e|]]; cbn in Hsent.
    + cbn [fst]. rewrite waitedBetween_quiet_cons.
      * rewrite <- (app_nil_r (_ ++ sent)).
        apply waitedBetween_skip; [apply Forall_app; auto|exact I].
      * apply quietHead_app; [assumption|].
        rewrite <- (app_nil_r sent). apply quietHead_app; [assumption|exact I].
    + destruct (nextChoice sched') as [[|] sched''].
      * specialize (IH sched'').
        destruct (pollLoop g q script sched'') as [evs ex]. cbn [fst] in *.
        rewrite waitedBetween_quiet_cons.
        -- rewrite app_assoc.
           rewrite waitedBetween_skip; [|apply Forall_app; auto|reflexivity].
           rewrite waitedBetween_after_wait. exact IH.
        -- apply quietHead_app; [assumption|].
           apply quietHead_app; [assumption|reflexivity].
      * cbn [fst]. rewrite waitedBetween_quiet_cons.
        -- rewrite <- (app_nil_r (_ ++ sent)).
           apply waitedBetween_skip; [apply Forall_app; auto|exact I].
        -- apply quietHead_app; [assumption|].
           rewrite <- (app_nil_r sent). apply quietHead_app; [assumption|exact I].
  - cbn [fst]. rewrite app_nil_r. rewrite waitedBetween_quiet_cons.
    + rewrite <- (app_nil_r (printWarnings _)).
      apply waitedBetween_skip; [assumption|exact I].
    + rewrite <- (app_nil_r (printWarnings _)).
      apply quietHead_app; [assumption|exact I].
Qed.

End metrics_props.

Module metrics_claims.
Import metrics metrics_props samples.

(** C3 (as amended). For a sample time [t] between the epoch and the
    year 2262 (so that its nanosecond count fits an int64), the record
    emitted at any granularity stores [t] truncated down to its minute,
    in milliseconds, a multiple of 60000; hence two samples of the same
    (entity, category, name) in the same minute get the same record key. *)
Theorem stored_timestamp_is_minute_floor g q r1 r2 m1 m2 :
  0 <= Timestamp r1 < 9223372036855 ->
  0 <= Timestamp r2 < 9223372036855 ->
  metricOf g q r1 = Some m1 ->
  metricOf g q r2 = Some m2 ->
  Timestamp_ m1 = 60000 * (Timestamp r1 / 60000)
  /\ (60000 | Timestamp_ m1)
  /\ (Id m1 = Id m2 -> Category m1 = Category m2 -> Name m1 = Name m2 ->
      Timestamp r1 / 60000 = Timestamp r2 / 60000 ->
      recordKey m1 = recordKey m2).
Proof.
  intros R1 R2 E1 E2.
  apply metricOf_timestamp in E1, E2.
  rewrite minuteMillis_floor in E1, E2 by assumption.
  split; [exact E1|]. split.
  - rewrite E1. exists (Timestamp r1 / 60000). lia.
  - intros Hid Hc Hn Hmin. unfold recordKey.
    rewrite Hid, Hc, Hn, E1, E2, Hmin. reflexivity.
Qed.

Lemma stored_timestamp_is_minute_floor_witness :
  exists m1 m2,
    metricOf Pod cpuUsageCores (podSeries "default" "web-1" 1700000012345) = Some m1
    /\ metricOf Pod cpuUsageCores (podSeries "default" "web-1" 1700000030000) = Some m2
    /\ 0 <= 1700000012345 < 9223372036855
    /\ 0 <= 1700000030000 < 9223372036855
    /\ 1700000012345 / 60000 = 1700000030000 / 60000
    /\ Timestamp_ m1 = 60000 * (1700000012345 / 60000)
    /\ recordKey m1 = recordKey m2.
Proof.
  eexists _, _.
  split; [vm_compute; reflexivity|]. split; [vm_compute; reflexivity|].
  split; [lia|]. split; [lia|]. split; [reflexivity|].
  pose proof (stored_timestamp_is_minute_floor Pod cpuUsageCores
                (podSeries "default" "web-1" 1700000012345)
                (podSeries "default" "web-1" 1700000030000) _ _
                ltac:(cbn; lia) ltac:(cbn; lia)
                ltac:(vm_compute; reflexivity) ltac:(vm_compute; reflexivity))
    as (Ht & _ & Hk).
  split; [exact Ht|].
  apply Hk; reflexivity.
Defined.

(** C3 as stated fails before the epoch: Go's [%] truncates towards zero,
    so a sample one millisecond before 1970 is stored at 0 and not at the
    start of its minute, -60000. *)
Lemma stored_timestamp_not_floor_before_epoch :
  ~ (forall g q res m,
        metricOf g q res = Some m ->
        Timestamp_ m = 60000 * (Timestamp res / 60000)).
Proof.
  intros H.
  specialize (H Cluster nodeCount (unlabelled (-1)) _ eq_refl).
  vm_compute in H. discriminate H.
Qed.

(** C1, at the input where the code departs from it: for any query, a
    container series with a numeric value and none of the labels
    [namespace], [pod], [container] is not skipped; the cycle sends one
    record, attributed to the digest of "//".  A node series without
    [node] and [instance] is likewise sent, attributed to the digest of the
    empty string.  The pod loop does skip the series. *)
Theorem unattributable_series_are_emitted q :
  label (unlabelled 0) "container" = ""
  /\ label (unlabelled 0) "node" = ""
  /\ label (unlabelled 0) "instance" = ""
  /\ (forEachSeries Container q [unlabelled 0] []).1.1 =
       [EvSend Container
          {| Id := sha1.Sum (bytes "//"); Timestamp_ := 0;
             Category := metricCategory q; Name := ""; Value_ := one |}]
  /\ (forEachSeries Node q [unlabelled 0] []).1.1 =
       [EvSend Node
          {| Id := sha1.Sum (bytes ""); Timestamp_ := 0;
             Category := metricCategory q; Name := ""; Value_ := one |}]
  /\ (forEachSeries Pod q [unlabelled 0] []).1.1 = [].
Proof.
  assert (Hn : metricName q (unlabelled 0) = "").
  { unfold metricName. case_decide; [reflexivity|apply label_unlabelled]. }
  repeat split; try apply label_unlabelled;
    cbn [forEachSeries metricOf];
    unfold containerMetric, nodeMetric, podMetric, newMetric;
    rewrite ?label_unlabelled, ?Hn; reflexivity.
Qed.

(** C6, at the input where the code departs from it: when the backend
    answers with a nil result, the [continue] skips the wait, and the next
    query is issued at once. *)
Theorem nil_result_requeries_without_waiting g q :
  (pollLoop g q [noResult; noResult] []).1 =
    [EvQuery (query q); EvPrint "No results found";
     EvQuery (query q); EvPrint "No results found"]
  /\ waitedBetween (pollLoop g q [noResult; noResult] []).1 = false.
Proof. split; reflexivity. Qed.

(** C10. Every record a cluster poller sends, for any query, script of
    backend responses and schedule, carries the SHA-1 digest of the empty
    string as its cluster identifier. *)
Theorem cluster_records_share_one_id q script sched :
  Forall (fun ev => forall m, sentMetric ev = Some m ->
                      Id m = sha1.Sum (bytes "")
                      /\ Id m = [218; 57; 163; 238; 94; 107; 75; 13; 50; 85;
                                 191; 239; 149; 96; 24; 144; 175; 216; 7; 9])
         (pollLoop Cluster q script sched).1.
Proof.
  apply pollLoop_Forall; try (intros; discriminate).
  intros res m E m' [= <-]. cbn [metricOf] in E. unfold clusterMetric in E.
  destruct (isNaN (Value res)); [discriminate|]. injection E as <-.
  cbn [Id newMetric]. split; [reflexivity|]. vm_compute. reflexivity.
Qed.

End metrics_claims.

(** ** The pod controller *)
Module controller_props.
Import controller.

Lemma call_ok c f st :
  faults st = [] \/ (exists rest, faults st = None :: rest) ->
  call c f st =
    (Some None, {| db := f (db st); faults := tl (faults st);
                   calls := calls st ++ [(c, None)] |}).
Proof.
  intros [E | [rest E]]; unfold call; rewrite E; reflexivity.
Qed.

Lemma call_fails c f st e rest :
  faults st = Some e :: rest ->
  call c f st =
    (Some (Some e), {| db := db st; faults := rest;
                       calls := calls st ++ [(c, Some e)] |}).
Proof. intros E. unfold call. rewrite E. reflexivity. Qed.

Lemma sameKey_true ns1 n1 ns2 n2 :
  sameKey ns1 n1 ns2 n2 = true <-> ns1 = ns2 /\ n1 = n2.
Proof.
  unfold sameKey. rewrite andb_true_iff, !bool_decide_eq_true. tauto.
Qed.

Lemma sameKey_false ns1 n1 ns2 n2 :
  sameKey ns1 n1 ns2 n2 = false -> ~ (ns1 = ns2 /\ n1 = n2).
Proof. intros H K. apply sameKey_true in K. congruence. Qed.

Lemma succeed_S k st :
  succeed (S k) st ->
  (faults st = [] \/ exists rest, faults st = None :: rest)
  /\ forall d cs, succeed k {| db := d; faults := tl (faults st); calls := cs |}.
Proof.
  unfold succeed. destruct (faults st) as [|f rest]; cbn.
  - intros _. split; [left; reflexivity|]. intros. rewrite take_nil. constructor.
  - intros H. apply Forall_cons in H as [-> H]. split; [right; eauto|auto].
Qed.


(** *** Which errors reach the caller *)

Lemma bind_unfold {A B} (m : M A) (k : A -> M B) st :
  bind m k st = match m st with
                | (Some a, st') => k a st'
                | (None, st') => (None, st')
                end.
Proof. reflexivity. Qed.

Lemma failsLast_prefix pre e new :
  okCalls pre -> failsLast e new -> failsLast e (pre ++ new).
Proof.
  intros Hpre. destruct e as [e|]; cbn.
  - intros (pre' & c & -> & H). exists (pre ++ pre'), c.
    rewrite app_assoc. split; [reflexivity|]. apply Forall_app; auto.
  - intros H. apply Forall_app; auto.
Qed.

Lemma tracks_ret {A} (a : A) errOf : errOf a = None -> tracks (ret a) errOf.
Proof.
  intros H st. exists []. cbn. rewrite app_nil_r, H.
  split; [reflexivity|constructor].
Qed.

Lemma tracks_call c f : tracks (call c f) id.
Proof.
  intros st. unfold call.
  destruct (faults st) as [|[e|] rest]; cbn.
  - exists [(c, None)]. split; [reflexivity|]. repeat constructor.
  - exists [(c, Some e)]. split; [reflexivity|].
    exists [], c. split; [reflexivity|constructor].
  - exists [(c, None)]. split; [reflexivity|]. repeat constructor.
Qed.

(** Sequencing, where the continuation returns at once the error it is
    given: [if err != nil { return err }]. *)
Lemma logs_bind {A B} (m : M A) (k : A -> M B) errA P :
  tracks m errA ->
  (forall pre b new, okCalls pre -> P b new -> P b (pre ++ new)) ->
  (forall a, errA a = None -> logs (k a) P) ->
  (forall a e, errA a = Some e ->
               exists b, k a = ret b /\ forall new, failsLast (Some e) new -> P b new) ->
  logs (bind m k) P.
Proof.
  intros Hm Hpre Hk He st. unfold bind.
  destruct (Hm st) as (new1 & Hc1 & H1).
  destruct (m st) as [[a|] st1]; cbn [fst snd] in *; [|contradiction].
  destruct (errA a) as [e|] eqn:Ea.
  - destruct (He a e Ea) as (b & -> & Hb). cbn. exists new1. auto.
  - destruct (Hk a Ea st1) as (new2 & Hc2 & H2).
    exists (new1 ++ new2). rewrite Hc2, Hc1, app_assoc. split; [reflexivity|].
    destruct ((k a st1).1) as [b|]; [|contradiction]. auto.
Qed.

Lemma tracks_bind {A B} (m : M A) (k : A -> M B) errA errB :
  tracks m errA ->
  (forall a, errA a = None -> tracks (k a) errB) ->
  (forall a e, errA a = Some e -> exists b, k a = ret b /\ errB b = Some e) ->
  tracks (bind m k) errB.
Proof.
  intros Hm Hk He. apply (logs_bind m k errA); auto.
  - intros pre b new. apply failsLast_prefix.
  - intros a e Ea. destruct (He a e Ea) as (b & Hb & Eb).
    exists b. split; [exact Hb|]. rewrite Eb. auto.
Qed.

Lemma tracks_check (m k : M (option error)) :
  tracks m id -> tracks k id ->
  tracks (bind m (fun e => match e with Some _ => ret e | None => k end)) id.
Proof.
  intros Hm Hk. apply (tracks_bind m _ id id Hm).
  - intros a Ha. cbn in Ha. subst a. exact Hk.
  - intros a e Ha. cbn in Ha. subst a. eauto.
Qed.

(** Straight-line code in which every call is followed by the check. *)
Ltac track :=
  repeat first [ apply tracks_call | apply tracks_ret; reflexivity
               | apply tracks_check ].

Section Tracking.
Variable env : Env.

Lemma tracks_syncContainerLogs pod container :
  tracks (syncContainerLogs env pod container) id.
Proof.
  unfold syncContainerLogs, dbExec. track.
Qed.

(** The request logs one call; with an error it hands back the empty
    object. *)
Lemma PodMetricsesGet_spec ns n st :
  exists f,
    PodMetricsesGet_ env ns n st =
      (Some (match f with
             | Some _ => emptyPodMetrics
             | None => metricsOf env ns n
             end, f),
       {| db := db st; faults := tl (faults st);
          calls := calls st ++ [(PodMetricsesGet ns n, f)] |}).
Proof.
  unfold PodMetricsesGet_, bind, call.
  destruct (faults st) as [|[e|] rest]; cbn;
    [exists None | exists (Some e) | exists None]; reflexivity.
Qed.

Lemma tracks_PodMetricsesGet ns n : tracks (PodMetricsesGet_ env ns n) snd.
Proof.
  unfold PodMetricsesGet_.
  apply (tracks_bind _ _ id snd (tracks_call _ _)).
  - intros a Ha. cbn in Ha. subst a. apply tracks_ret. reflexivity.
  - intros a e Ha. cbn in Ha. subst a. eauto.
Qed.

Lemma GetPodMetrics_fold_ok (cs : list ContainerMetrics) init :
  init.2 = None ->
  (fold_left
     (fun _ container =>
        ((UsageCPU container, 1000),
         (UsageMemory container, 1024 * 1024),
         (UsageStorage container, 1024 * 1024),
         (UsageEphemeralStorage container, 1024 * 1024),
         @None error))
     cs init).2 = None.
Proof.
  revert init. induction cs as [|c cs IH]; intros init H; [exact H|].
  cbn [fold_left]. apply IH. reflexivity.
Qed.

Lemma tracks_GetPodMetrics pod : tracks (GetPodMetrics env pod) snd.
Proof.
  unfold GetPodMetrics.
  apply (tracks_bind _ _ snd snd (tracks_PodMetricsesGet _ _)).
  - intros [pm e]. cbn. intros ->. apply tracks_ret.
    apply GetPodMetrics_fold_ok. reflexivity.
  - intros [pm e'] e. cbn. intros ->. eauto.
Qed.

Lemma tracks_syncPodMetrics pod cm : tracks (syncPodMetrics env pod cm) id.
Proof.
  unfold syncPodMetrics.
  apply (tracks_bind _ _ snd id (tracks_PodMetricsesGet _ _)).
  - intros [metrics e]. cbn. intros ->.
    apply (tracks_bind _ _ snd id (tracks_GetPodMetrics _)).
    + intros [[[[cpu mem] sto] eph] e]. cbn. intros ->.
      unfold dbExec. apply tracks_check; [apply tracks_call|].
      apply tracks_ret. reflexivity.
    + intros [[[[cpu mem] sto] eph] e'] e. cbn. intros ->. eauto.
  - intros [metrics e'] e. cbn. intros ->. eauto.
Qed.

Lemma tracks_forEach {A} (f : A -> M (option error)) xs :
  (forall x, tracks (f x) id) -> tracks (forEach f xs) id.
Proof.
  intros Hf. induction xs as [|x xs IH]; cbn [forEach].
  - apply tracks_ret. reflexivity.
  - apply tracks_check; auto.
Qed.

Lemma dropsOnly_prefix ns n pre r new :
  okCalls pre -> dropsOnlyPodMetricsError ns n r new ->
  dropsOnlyPodMetricsError ns n r (pre ++ new).
Proof.
  intros Hpre. destruct r as [e|]; cbn [dropsOnlyPodMetricsError].
  - apply failsLast_prefix, Hpre.
  - intros [H|(pre' & e & -> & H)].
    + left. apply Forall_app; auto.
    + right. exists (pre ++ pre'), e. rewrite app_assoc.
      split; [reflexivity|]. apply Forall_app; auto.
Qed.

(** The tail of the upsert branch: the unchecked request and the loop
    over the containers it reports. *)
Lemma logs_pod_metrics_tail k8sPod ns n :
  logs (bind (PodMetricsesGet_ env ns n)
             (fun x => let '(podMetrics, _) := x in
                       bind (forEach (syncPodMetrics env k8sPod)
                                     (MContainers podMetrics))
                            (fun e => match e with
                                      | Some _ => ret e
                                      | None => ret None
                                      end)))
       (dropsOnlyPodMetricsError ns n).
Proof.
  intros st. rewrite bind_unfold.
  destruct (PodMetricsesGet_spec ns n st) as [f ->].
  destruct f as [e|].
  - (* the request failed: no container to loop over *)
    exists [(PodMetricsesGet ns n, Some e)]. split; [reflexivity|].
    cbn. right. exists [], e. split; [reflexivity|constructor].
  - match goal with |- context [bind ?m ?k ?s] =>
      assert (Ht : tracks (bind m k) id)
        by (apply tracks_check;
            [apply tracks_forEach, tracks_syncPodMetrics
            |apply tracks_ret; reflexivity]);
      destruct (Ht s) as (new & Hc & Hr);
      destruct (bind m k s) as [[r|] st'] end; [|contradiction].
    cbn [fst snd calls] in *.
    exists ((PodMetricsesGet ns n, None) :: new).
    split; [rewrite Hc, <- app_assoc; reflexivity|].
    change ((PodMetricsesGet ns n, None) :: new)
      with ([(PodMetricsesGet ns n, @None error)] ++ new).
    apply dropsOnly_prefix; [repeat constructor|].
    destruct r as [e|]; [exact Hr|left; exact Hr].
Qed.

(** X10. On an upsert of a pod, a failure of the mapping is returned
    before any call is made; after that, every error of the store or of
    the API is returned by [Sync], save the error of the pod-metrics request
    that [Sync] makes itself. *)
Lemma Sync_upsert_errors key k8sPod :
  match NewPodFromK8s env k8sPod with
  | (_, Some e) =>
      forall st, Sync env key (IsPod k8sPod) true st = (Some (Some e), st)
  | (pod, None) =>
      logs (Sync env key (IsPod k8sPod) true)
           (dropsOnlyPodMetricsError (Namespace pod) (Name pod))
  end.
Proof.
  unfold Sync. cbn [negb].
  destruct (NewPodFromK8s env k8sPod) as [pod [e|]]; [reflexivity|].
  apply (logs_bind _ _ id _ (tracks_call _ _)).
  - intros pre b new. apply dropsOnly_prefix.
  - intros a Ha. cbn in Ha. subst a.
    apply (logs_bind _ _ id _
             (tracks_forEach _ _ (tracks_syncContainerLogs k8sPod))).
    + intros pre b new. apply dropsOnly_prefix.
    + intros a Ha. cbn in Ha. subst a. apply logs_pod_metrics_tail.
    + intros a e Ha. cbn in Ha. subst a. eauto.
  - intros a e Ha. cbn in Ha. subst a. eauto.
Qed.

(** A delete returns every error of the store. *)
Lemma Sync_delete_errors key obj ns n :
  SplitMetaNamespaceKey key = (ns, n, None) ->
  tracks (Sync env key obj false) id.
Proof.
  intros Hk. unfold Sync, dbExec. cbn [negb]. rewrite Hk. track.
Qed.

End Tracking.

End controller_props.

Module controller_claims.
Import controller controller_props controller_samples.

(** C2 (as amended). For a delete notification whose key splits into
    [namespace/name] and whose three statements succeed, [Sync] sends, in
    this order, the delete on [pod] (the parent) and then the deletes on
    [container_logs] and [pod_metrics] (the children), and returns nil;
    afterwards none of these three tables holds a row for that key, and the
    telemetry table of the pollers is as it was: [Sync] sends no statement
    for it. *)
Theorem delete_removes_pod_then_children env key obj st ns n :
  SplitMetaNamespaceKey key = (ns, n, None) ->
  succeed 3 st ->
  (Sync env key obj false st).1 = Some None
  /\ calls (Sync env key obj false st).2 =
       calls st ++ [ (Exec (DeleteFromPod ns n), None);
                     (Exec (DeleteFromContainerLogs ns n), None);
                     (Exec (DeleteFromPodMetrics ns n), None) ]
  /\ noRowFor ns n (db (Sync env key obj false st).2)
  /\ prometheus_pod_metric (db (Sync env key obj false st).2) =
       prometheus_pod_metric (db st).
Proof.
  intros Hk H3. unfold Sync. cbn [negb]. rewrite Hk.
  apply succeed_S in H3 as [H1 H3].
  unfold bind, dbExec. rewrite (call_ok _ _ _ H1).
  specialize (H3 (execStmt (DeleteFromPod ns n) (db st))
                 (calls st ++ [(Exec (DeleteFromPod ns n), None)])).
  apply succeed_S in H3 as [H2 H3].
  rewrite (call_ok _ _ _ H2). cbn [db faults calls] in *.
  match goal with |- context [call ?c ?f ?s] =>
    specialize (H3 (db s) (calls s)); apply succeed_S in H3 as [H3 _];
    rewrite (call_ok c f s H3) end.
  cbn [fst snd db calls ret]. split; [reflexivity|]. split; [|split].
  - rewrite <- !app_assoc. reflexivity.
  - unfold noRowFor. cbn [execStmt pod container_logs pod_metrics].
    repeat split; intros r Hr; apply list_elem_of_filter in Hr as [Hr _];
      apply sameKey_false in Hr; exact Hr.
  - reflexivity.
Qed.

Lemma delete_removes_pod_then_children_witness :
  SplitMetaNamespaceKey "default/web-1" = ("default", "web-1", None)
  /\ succeed 3 (start db1 [])
  /\ calls (Sync env0 "default/web-1" NotAPod false (start db1 [])).2 =
       [ (Exec (DeleteFromPod "default" "web-1"), None);
         (Exec (DeleteFromContainerLogs "default" "web-1"), None);
         (Exec (DeleteFromPodMetrics "default" "web-1"), None) ]
  /\ noRowFor "default" "web-1"
       (db (Sync env0 "default/web-1" NotAPod false (start db1 [])).2)
  /\ prometheus_pod_metric
       (db (Sync env0 "default/web-1" NotAPod false (start db1 [])).2) =
     [telemetryRow].
Proof.
  split; [reflexivity|]. split; [constructor|].
  apply (delete_removes_pod_then_children env0 "default/web-1" NotAPod
           (start db1 []) "default" "web-1").
  - reflexivity.
  - constructor.
Defined.

(** C2 as stated fails three times over: the parent row is deleted first
    and the children after it; when a statement fails [Sync] stops, so rows
    for the key stay behind; and even when every statement succeeds, the
    telemetry row a pod poller wrote for the pod is still in the store. *)
Lemma delete_is_parent_first_can_stop_midway_and_keeps_telemetry :
  ~ (forall env key obj st,
        childrenBeforeParent
          (stmtsOf (calls (Sync env key obj false st).2)) = true)
  /\ ~ (forall env key obj st ns n,
          SplitMetaNamespaceKey key = (ns, n, None) ->
          noRowFor ns n (db (Sync env key obj false st).2))
  /\ metrics.podMetric samples.cpuUsageCores
       (samples.podSeries "default" "web-1" 1700000012345) = Some telemetryRow
  /\ ~ (forall env key obj st ns n,
          SplitMetaNamespaceKey key = (ns, n, None) ->
          succeed 3 st ->
          noTelemetryFor ns n (db (Sync env key obj false st).2)).
Proof.
  split; [|split; [|split]].
  - intros H.
    specialize (H env0 "default/web-1" NotAPod (start db0 [])).
    vm_compute in H. discriminate H.
  - intros H.
    specialize (H env0 "default/web-1" NotAPod
                  (start db0 [None; Some unavailable])
                  "default" "web-1" eq_refl).
    destruct H as (_ & H & _).
    apply (H (logRow "default" "web-1" "app")).
    + vm_compute. left.
    + split; reflexivity.
  - vm_compute. reflexivity.
  - intros H.
    specialize (H env0 "default/web-1" NotAPod (start db1 [])
                  "default" "web-1" eq_refl ltac:(constructor)).
    apply (H telemetryRow).
    + vm_compute. left.
    + reflexivity.
Qed.

(** C4, at the input where the code departs from it: on an upsert whose
    store statements and log requests succeed, the error of the
    pod-metrics request that [Sync] makes itself is assigned and never
    read; the request hands back an empty object, the loop over its
    containers does nothing, and [Sync] returns nil.  An object that is
    not a pod makes [Sync] panic. *)
Theorem Sync_drops_the_pod_metrics_error :
  (Sync env0 "default/web-1" (IsPod web1) true
        (start db0 [None; None; None; None; Some unavailable])).1 = Some None
  /\ calls (Sync env0 "default/web-1" (IsPod web1) true
                 (start db0 [None; None; None; None; Some unavailable])).2 =
       [ (Exec (UpsertPod (podRow "default" "web-1")), None);
         (GetLogsStream "default" "web-1" "app", None);
         (ReadAll, None);
         (Exec (UpsertContainerLogs (logRow "default" "web-1" "app")), None);
         (PodMetricsesGet "default" "web-1", Some unavailable) ]
  /\ (Sync env0 "default/web-1" NotAPod true (start db0 [])).1 = None.
Proof. repeat split; vm_compute; reflexivity. Qed.

End controller_claims.

(** ** The PVC entity *)
Module v1_props.
Import v1 v1_samples.

Example visits_appFirst : visits dataClaim appFirst.
Proof. unfold visits. vm_compute. first [reflexivity | apply perm_swap]. Qed.

Example visits_tierFirst : visits dataClaim tierFirst.
Proof. unfold visits. vm_compute. first [reflexivity | apply perm_swap]. Qed.

Section Mapping.
Variable Snake : string -> string.
Variable ToLower : string -> string.
Variable Checksum : string -> Binary.

(** What a run that does not panic leaves in the receiver. *)
Lemma Obtain_Some visit p pvc r :
  Obtain Snake ToLower Checksum visit p (IsPvc pvc) = Some r ->
  Id r = Checksum (ObjNamespace pvc ++ "/" ++ ObjName pvc)
  /\ Meta_ r = {| Namespace := ObjNamespace pvc; Name := ObjName pvc |}
  /\ Phase r = Snake (StatusPhase pvc)
  /\ VolumeName r = SpecVolumeName pvc
  /\ VolumeMode r = default (VolumeMode p) (SpecVolumeMode pvc)
  /\ Conditions r =
       Conditions p ++
       map (fun c => {| PvcId := Id r; Type_ := Snake (CType c);
                        Status := CStatus c; LastProbe := LastProbeTime c;
                        LastTransition := LastTransitionTime c;
                        Reason := CReason c; Message := CMessage c |})
           (StatusConditions pvc)
  /\ Labels r =
       Labels p ++
       map (fun l => {| LabelId_ := Checksum (ToLower (l.1 ++ ":" ++ l.2));
                        LabelName := l.1; LabelValue := l.2 |}) visit
  /\ PvcLabels r =
       PvcLabels p ++
       map (fun l => {| LPvcId := Id r;
                        LabelId := Checksum (ToLower (l.1 ++ ":" ++ l.2)) |})
           visit.
Proof.
  unfold v1.Obtain. cbv zeta.
  destruct (SpecVolumeMode pvc) as [m|];
    [destruct (SpecStorageClassName pvc) as [sc|]; [|discriminate]|];
    intros [= <-]; cbn; repeat split; reflexivity.
Qed.

(** X19. [Obtain] panics exactly on an object that is not a claim and on
    a claim with a volume mode and no storage class name, whatever the
    receiver and the order in which the labels are visited. *)
Lemma Obtain_None visit p k8s :
  Obtain Snake ToLower Checksum visit p k8s = None <->
  match k8s with
  | NotAPvc => True
  | IsPvc pvc => is_Some (SpecVolumeMode pvc) /\ SpecStorageClassName pvc = None
  end.
Proof.
  unfold v1.Obtain. cbv zeta. destruct k8s as [pvc|]; [|tauto].
  destruct (SpecVolumeMode pvc) as [m|];
    [destruct (SpecStorageClassName pvc) as [sc|]|]; split;
    try discriminate; try tauto; try (intros [[] ?]; discriminate);
    try (intros [? ?]; discriminate).
  intros _. split; [eauto|reflexivity].
Qed.
End Mapping.

(** *** The replace-by-foreign-key step *)

Lemma elem_of_insertRows {A} `{EqDecision A} (rows t : list A) x :
  x ∈ insertRows rows t <-> x ∈ t \/ x ∈ rows.
Proof.
  unfold insertRows. revert t. induction rows as [|r rows IH]; intros t; cbn.
  - rewrite elem_of_nil. tauto.
  - rewrite IH, elem_of_cons. case_decide as Hin.
    + split; [tauto|]. intros [?|[->|?]]; tauto.
    + rewrite elem_of_app, list_elem_of_singleton. tauto.
Qed.

Lemma elem_of_replaceRows {A} `{EqDecision A}
      (column : string -> A -> option Cell) fk id (rows t : list A) x :
  x ∈ replaceRows column fk id rows t <->
  (x ∈ t /\ column fk x <> Some (CBin id)) \/ x ∈ rows.
Proof.
  unfold replaceRows. rewrite elem_of_insertRows, list_elem_of_filter. tauto.
Qed.

Lemma conditionColumn_pvc_id r :
  conditionColumn "pvc_id" r = Some (CBin (PvcId r)).
Proof. reflexivity. Qed.

Lemma pvcLabelColumn_pvc_id r :
  pvcLabelColumn "pvc_id" r = Some (CBin (LPvcId r)).
Proof. reflexivity. Qed.

(** The [value] column of the dictionary holds text, never an identifier. *)
Lemma labelColumn_value l :
  labelColumn "value" l = Some (CStr (LabelValue l)).
Proof. reflexivity. Qed.

End v1_props.

Module v1_claims.
Import v1 v1_props v1_samples.

(** C5, at the inputs where the code departs from it: the assignment of
    [StorageClass] is guarded by the test on [VolumeMode].  A claim with a
    volume mode and no storage class name makes [Obtain] panic on a nil
    dereference, whatever the receiver; a claim with a storage class name
    and no volume mode leaves [StorageClass] empty. *)
Theorem Obtain_guards_storage_class_by_volume_mode
        Snake ToLower Checksum visit p :
  Obtain Snake ToLower Checksum visit p (IsPvc claimWithoutClass) = None
  /\ SpecStorageClassName claimWithoutMode = Some "fast"
  /\ StorageClass <$> Obtain Snake ToLower Checksum visit NewPvc
                             (IsPvc claimWithoutMode) = Some "".
Proof. repeat split; reflexivity. Qed.

(** C8 (as amended). Two runs of the mapping on the same raw object, from
    the same receiver state, either both panic or agree on the identifier,
    on every scalar field and on [Conditions]; [Labels] and [PvcLabels]
    hold the same rows, in the order in which each run visited the label
    map, so they agree up to a permutation. *)
Theorem Obtain_twice_agrees_up_to_label_order
        Snake ToLower Checksum visit1 visit2 p k8s :
  visit1 ≡ₚ visit2 ->
  match Obtain Snake ToLower Checksum visit1 p k8s,
        Obtain Snake ToLower Checksum visit2 p k8s with
  | Some r1, Some r2 =>
      Meta_ r1 = Meta_ r2 /\ Id r1 = Id r2 /\ Phase r1 = Phase r2
      /\ VolumeName r1 = VolumeName r2 /\ VolumeMode r1 = VolumeMode r2
      /\ StorageClass r1 = StorageClass r2
      /\ Conditions r1 = Conditions r2
      /\ Labels r1 ≡ₚ Labels r2
      /\ PvcLabels r1 ≡ₚ PvcLabels r2
  | None, None => True
  | _, _ => False
  end.
Proof.
  intros Hv. unfold Obtain. cbv zeta. destruct k8s as [pvc|]; [|exact I].
  destruct (SpecVolumeMode pvc) as [m|];
    [destruct (SpecStorageClassName pvc) as [sc|]; [|exact I]|];
    cbn; repeat split; try reflexivity;
    apply Permutation_app_head, Permutation_map, Hv.
Qed.

Lemma Obtain_twice_agrees_up_to_label_order_witness :
  appFirst ≡ₚ tierFirst
  /\ match Obtain id id sha appFirst NewPvc (IsPvc dataClaim),
           Obtain id id sha tierFirst NewPvc (IsPvc dataClaim) with
     | Some r1, Some r2 =>
         Meta_ r1 = Meta_ r2 /\ Id r1 = Id r2 /\ Phase r1 = Phase r2
         /\ VolumeName r1 = VolumeName r2 /\ VolumeMode r1 = VolumeMode r2
         /\ StorageClass r1 = StorageClass r2
         /\ Conditions r1 = Conditions r2
         /\ Labels r1 ≡ₚ Labels r2
         /\ PvcLabels r1 ≡ₚ PvcLabels r2
     | None, None => True
     | _, _ => False
     end.
Proof.
  split; [apply perm_swap|].
  apply (Obtain_twice_agrees_up_to_label_order id id sha appFirst tierFirst
           NewPvc (IsPvc dataClaim)).
  apply perm_swap.
Defined.

(** C8 as stated fails: two runs that visit the label map of the same
    claim in different orders fill [Labels] in different orders. *)
Lemma Obtain_twice_differs_in_label_order :
  ~ (forall Snake ToLower Checksum pvc visit1 visit2 p r1 r2,
        visits pvc visit1 -> visits pvc visit2 ->
        Obtain Snake ToLower Checksum visit1 p (IsPvc pvc) = Some r1 ->
        Obtain Snake ToLower Checksum visit2 p (IsPvc pvc) = Some r2 ->
        Labels r1 = Labels r2).
Proof.
  intros H.
  specialize (H id id sha dataClaim appFirst tierFirst NewPvc _ _
                visits_appFirst visits_tierFirst eq_refl eq_refl).
  apply (f_equal (map LabelName)) in H. vm_compute in H. discriminate H.
Qed.

(** C9. [Relations] declares the conditions and the label associations
    under the foreign key [pvc_id] and the label dictionary under its own
    [value] column.  With the replace step of the database layer, after a
    resync the rows of [pvc_condition] and [pvc_label] under the claim's
    identifier are exactly the current ones, rows of other claims stay,
    and every row the label dictionary held before is still there. *)
Theorem resync_replaces_by_pvc_id_and_keeps_labels
        Snake ToLower Checksum visit k8s p st :
  Obtain Snake ToLower Checksum visit NewPvc k8s = Some p ->
  map ForeignKey (Relations p) = ["pvc_id"; "value"; "pvc_id"]
  /\ (forall r, r ∈ pvc_condition (resync p st) /\ PvcId r = Id p
                <-> r ∈ Conditions p)
  /\ (forall r, r ∈ pvc_label (resync p st) /\ LPvcId r = Id p
                <-> r ∈ PvcLabels p)
  /\ (forall r, r ∈ pvc_condition st -> PvcId r <> Id p ->
                r ∈ pvc_condition (resync p st))
  /\ (forall r, r ∈ pvc_label st -> LPvcId r <> Id p ->
                r ∈ pvc_label (resync p st))
  /\ (forall l, l ∈ label st -> l ∈ label (resync p st))
  /\ (forall l, l ∈ Labels p -> l ∈ label (resync p st)).
Proof.
  intros Ho. destruct k8s as [pvc|]; [|discriminate Ho].
  apply Obtain_Some in Ho as (_ & _ & _ & _ & _ & Hc & _ & Hl).
  cbn [NewPvc Conditions PvcLabels app] in Hc, Hl.
  assert (HcId : forall r, r ∈ Conditions p -> PvcId r = Id p).
  { intros r Hr. rewrite Hc in Hr. apply list_elem_of_fmap in Hr as (c & -> & _).
    reflexivity. }
  assert (HlId : forall r, r ∈ PvcLabels p -> LPvcId r = Id p).
  { intros r Hr. rewrite Hl in Hr. apply list_elem_of_fmap in Hr as (c & -> & _).
    reflexivity. }
  split; [reflexivity|].
  cbn [resync Relations fold_left syncRelation pvc_condition pvc_label label].
  repeat split.
  - intros [Hr Hid]. apply elem_of_replaceRows in Hr as [[_ Hne]|Hr]; [|exact Hr].
    exfalso. apply Hne. rewrite conditionColumn_pvc_id. congruence.
  - apply elem_of_replaceRows. right. assumption.
  - apply HcId. assumption.
  - intros [Hr Hid]. apply elem_of_replaceRows in Hr as [[_ Hne]|Hr]; [|exact Hr].
    exfalso. apply Hne. rewrite pvcLabelColumn_pvc_id. congruence.
  - apply elem_of_replaceRows. right. assumption.
  - apply HlId. assumption.
  - intros r Hr Hne. apply elem_of_replaceRows. left. split; [exact Hr|].
    rewrite conditionColumn_pvc_id. congruence.
  - intros r Hr Hne. apply elem_of_replaceRows. left. split; [exact Hr|].
    rewrite pvcLabelColumn_pvc_id. congruence.
  - intros l Hin. apply elem_of_replaceRows. left. split; [exact Hin|].
    rewrite labelColumn_value. discriminate.
  - intros l Hin. apply elem_of_replaceRows. right. exact Hin.
Qed.

Lemma resync_replaces_by_pvc_id_and_keeps_labels_witness :
  exists p,
    Obtain id id sha appFirst NewPvc (IsPvc dataClaim) = Some p
    /\ map ForeignKey (Relations p) = ["pvc_id"; "value"; "pvc_id"]
    /\ (forall l, l ∈ label store0 -> l ∈ label (resync p store0)).
Proof.
  eexists. split; [reflexivity|].
  pose proof (resync_replaces_by_pvc_id_and_keeps_labels
                id id sha appFirst (IsPvc dataClaim) _ store0 eq_refl)
    as (Hfk & _ & _ & _ & _ & Hkeep & _).
  split; [exact Hfk | exact Hkeep].
Defined.

(** *** Keys and their bytes *)







End v1_claims.

(** ** More on the metric pollers *)
Module metrics_extras.
Import metrics metrics_props queries metrics_aux.

(** X1. Whatever the sample time, the stored time is a whole number of
    minutes in milliseconds; as long as the nanosecond count fits an int64
    it is the sample time rounded towards zero to the minute, and never
    further from zero than the sample time. *)
Theorem minute_truncation_rounds_towards_zero t :
  (60000 | minuteMillis t)
  /\ (- 9223372036854 <= t <= 9223372036854 ->
      minuteMillis t = 60000 * (t ÷ 60000)
      /\ Z.abs (minuteMillis t) <= Z.abs t).
Proof.
  split; [apply minuteMillis_multiple|]. intros H.
  assert (E : minuteMillis t = 60000 * (t ÷ 60000)).
  { rewrite minuteMillis_quot. f_equal.
    unfold UnixNano. rewrite wrap64_id by lia.
    change 60000000000 with (60000 * 1000000).
    apply Z.quot_mul_cancel_r; lia. }
  split; [exact E|]. rewrite E.
  destruct (sub_rem_quot t 60000 ltac:(lia)) as [Eq Hb]. rewrite <- Eq. exact Hb.
Qed.

(** Every record a cycle sends is built from a series of the vector. *)
Lemma forEachSeries_sent g q v sched ev :
  ev ∈ (forEachSeries g q v sched).1.1 ->
  exists res m, res ∈ v /\ metricOf g q res = Some m /\ ev = EvSend g m.
Proof.
  revert sched. induction v as [|res v IH]; intros sched; cbn [forEachSeries].
  - intros H. apply elem_of_nil in H as [].
  - destruct (metricOf g q res) as [m|] eqn:E.
    + destruct (nextChoice sched) as [[|] sched'].
      * specialize (IH sched').
        destruct (forEachSeries g q v sched') as [[evs s''] r]. cbn in *.
        intros [->|H]%elem_of_cons.
        -- exists res, m. split; [left|auto].
        -- destruct (IH H) as (res' & m' & ? & ? & ?).
           exists res', m'. split; [right|]; auto.
      * cbn. intros H. apply elem_of_nil in H as [].
    + intros H. destruct (IH _ H) as (res' & m' & ? & ? & ?).
      exists res', m'. split; [right|]; auto.
Qed.

(** X3. Under any schedule, the records a cycle sends are a prefix of the
    series that are not skipped, in the order of the vector; the cycle
    sends all of them unless a send was cancelled, in which case it hands
    back the context's error, and it is never cancelled by a schedule
    without a cancellation. *)
Theorem cycle_sends_a_prefix_in_vector_order g q v sched :
  (forEachSeries g q v sched).1.1 `prefix_of`
    (EvSend g <$> omap (metricOf g q) v)
  /\ ((forEachSeries g q v sched).2 = None ->
      (forEachSeries g q v sched).1.1 = EvSend g <$> omap (metricOf g q) v)
  /\ (forall e, (forEachSeries g q v sched).2 = Some e ->
                e = ctxErr /\ Cancelled ∈ sched).
Proof.
  revert sched. induction v as [|res v IH]; intros sched;
    cbn [forEachSeries omap list_omap].
  - cbn. split; [reflexivity|]. split; [reflexivity|]. intros e [=].
  - destruct (metricOf g q res) as [m|]; [|apply IH].
    destruct sched as [|[|] sched']; cbn [nextChoice fmap list_fmap].
    + destruct (IH []) as (Hp & Hn & He).
      destruct (forEachSeries g q v []) as [[evs s''] r]. cbn in *.
      split; [apply prefix_cons, Hp|]. split.
      * intros ->. rewrite Hn by reflexivity. reflexivity.
      * intros e ->. destruct (He e eq_refl) as [_ H].
        apply elem_of_nil in H as [].
    + destruct (IH sched') as (Hp & Hn & He).
      destruct (forEachSeries g q v sched') as [[evs s''] r]. cbn in *.
      split; [apply prefix_cons, Hp|]. split.
      * intros ->. rewrite Hn by reflexivity. reflexivity.
      * intros e ->. destruct (He e eq_refl) as [-> H].
        split; [reflexivity|right; exact H].
    + cbn. split; [apply prefix_nil|]. split; [intros [=]|].
      intros e [= <-]. split; [reflexivity|left].
Qed.

Lemma metricOf_taskRecord g q res m :
  metricOf g q res = Some m -> taskRecord g q (EvSend g m).
Proof.
  intros E. cbn.
  assert (Hm : exists id, length id = 20%nat /\ m = newMetric id q res).
  { revert E. by_granularity g; repeat case_match; intros [= <-];
      eexists; (split; [apply sha1_Sum_length|reflexivity]). }
  assert (Hv : isNaN (Value res) = false).
  { destruct (isNaN (Value res)) eqn:Ev; [|reflexivity].
    rewrite (metricOf_NaN g q res Ev) in E. discriminate E. }
  destruct Hm as (id & Hlen & ->).
  cbn [Id Category Timestamp_ Name Value_ newMetric].
  split; [reflexivity|]. split; [reflexivity|]. split; [exact Hlen|].
  split; [apply minuteMillis_multiple|]. split; [|exact Hv].
  intros Hn. unfold metricName. rewrite decide_True by exact Hn. reflexivity.
Qed.

(** X4. Every record a poller task sends, in any cycle and under any
    script and schedule, goes to the channel of the task's granularity and
    carries the category of the task's query, a twenty-byte identifier, a
    timestamp that is a multiple of 60000 and a value that is not NaN; its
    name is empty when the query has no name label. *)
Theorem task_records_carry_the_query g q script sched :
  Forall (taskRecord g q) (pollLoop g q script sched).1.
Proof.
  apply pollLoop_Forall; try (intros; exact I).
  apply metricOf_taskRecord.
Qed.

(** X5. At cluster granularity the identifier is the same for every
    series, so a query without a name label maps all the series of one
    minute to one record key, whatever their labels; with a name label,
    series that differ in that label get different keys. *)
Theorem cluster_series_are_told_apart_by_name_only q r1 r2 m1 m2 :
  clusterMetric q r1 = Some m1 ->
  clusterMetric q r2 = Some m2 ->
  (nameLabel q = "" ->
   minuteMillis (Timestamp r1) = minuteMillis (Timestamp r2) ->
   recordKey m1 = recordKey m2)
  /\ (nameLabel q <> "" ->
      label r1 (nameLabel q) <> label r2 (nameLabel q) ->
      recordKey m1 <> recordKey m2).
Proof.
  unfold clusterMetric.
  destruct (isNaN (Value r1)); [discriminate|].
  destruct (isNaN (Value r2)); [discriminate|].
  intros [= <-] [= <-]. unfold recordKey, newMetric, metricName. cbn.
  split.
  - intros Hn Ht. rewrite !decide_True by exact Hn. rewrite Ht. reflexivity.
  - intros Hn Hl. rewrite !decide_False by exact Hn. congruence.
Qed.

Lemma cluster_series_are_told_apart_by_name_only_witness :
  In qosByClass promQueriesCluster
  /\ In byDevice promQueriesCluster
  /\ (exists m1 m2,
        clusterMetric qosByClass (qosSeries "Burstable" (S754_finite false 3 0)) = Some m1
        /\ clusterMetric qosByClass (qosSeries "Guaranteed" (S754_finite false 5 0)) = Some m2
        /\ recordKey m1 = recordKey m2)
  /\ (exists m1 m2,
        clusterMetric byDevice (deviceSeries "eth0") = Some m1
        /\ clusterMetric byDevice (deviceSeries "eth1") = Some m2
        /\ recordKey m1 <> recordKey m2).
Proof.
  split; [vm_compute; tauto|]. split; [vm_compute; tauto|]. split.
  - eexists _, _. split; [reflexivity|]. split; [reflexivity|].
    apply (cluster_series_are_told_apart_by_name_only qosByClass
             (qosSeries "Burstable" (S754_finite false 3 0))
             (qosSeries "Guaranteed" (S754_finite false 5 0)) _ _
             eq_refl eq_refl); reflexivity.
  - eexists _, _. split; [reflexivity|]. split; [reflexivity|].
    apply (cluster_series_are_told_apart_by_name_only byDevice
             (deviceSeries "eth0") (deviceSeries "eth1") _ _ eq_refl eq_refl).
    + discriminate.
    + vm_compute. discriminate.
Defined.

(** *** Where a task ends *)

Lemma countQueries_quiet l :
  Forall (fun ev => isQuery ev = false) l -> countQueries l = 0%nat.
Proof.
  unfold countQueries. induction 1 as [|ev l Hev _ IH]; [reflexivity|].
  cbn. rewrite Hev. exact IH.
Qed.

Lemma countQueries_app l tr :
  countQueries (l ++ tr) = (countQueries l + countQueries tr)%nat.
Proof. unfold countQueries. rewrite List.filter_app, length_app. reflexivity. Qed.

Lemma sent_quiet g q v sched :
  Forall (fun ev => isQuery ev = false) (forEachSeries g q v sched).1.1.
Proof. apply forEachSeries_Forall. reflexivity. Qed.

(** One iteration that got an answer, when nothing is cancelled: the task
    goes on with the rest of the script, one query later. *)
Lemma pollLoop_answered g q r script :
  answers r ->
  (pollLoop g q (r :: script) []).2 = (pollLoop g q script []).2
  /\ countQueries (pollLoop g q (r :: script) []).1 =
       S (countQueries (pollLoop g q script []).1).
Proof.
  intros [He Hr]. cbn [pollLoop]. rewrite He.
  pose proof (printWarnings_quiet (warnings r)) as Hw.
  destruct (result r) as [[v|]|]; [|contradiction|].
  - pose proof (sent_quiet g q v []) as Hs.
    rewrite forEachSeries_uncancelled in *. cbn [nextChoice fst snd] in *.
    destruct (pollLoop g q script []) as [evs ex]. cbn [fst snd].
    split; [reflexivity|].
    change (EvQuery (query q) :: ?l) with ([EvQuery (query q)] ++ l).
    rewrite !countQueries_app, (countQueries_quiet _ Hw), (countQueries_quiet _ Hs).
    reflexivity.
  - destruct (pollLoop g q script []) as [evs ex]. cbn [fst snd].
    split; [reflexivity|].
    change (EvQuery (query q) :: ?l) with ([EvQuery (query q)] ++ l).
    rewrite !countQueries_app, (countQueries_quiet _ Hw). reflexivity.
Qed.

(** X6. When nothing is cancelled, a task goes through the answers of the
    backend one query at a time and ends at the first response that
    carries an error, which it returns wrapped, or that is not a vector,
    on which it panics; the responses after that one are never asked for.
    With answers only, the task is still running when they are used up. *)
Theorem task_ends_at_the_first_failed_query g q pre r rest :
  Forall answers pre ->
  (pollLoop g q pre []).2 = Blocked
  /\ countQueries (pollLoop g q pre []).1 = length pre
  /\ (forall e, err r = Some e ->
        (pollLoop g q (pre ++ r :: rest) []).2 =
          Returned (Wrap e "error querying Prometheus")
        /\ countQueries (pollLoop g q (pre ++ r :: rest) []).1 = S (length pre))
  /\ (err r = None -> result r = Some NotVector ->
        (pollLoop g q (pre ++ r :: rest) []).2 = Panicked
        /\ countQueries (pollLoop g q (pre ++ r :: rest) []).1 = S (length pre)).
Proof.
  induction 1 as [|a pre Ha _ IH].
  - split; [reflexivity|]. split; [reflexivity|]. split.
    + intros e He. cbn [app pollLoop]. rewrite He. split; reflexivity.
    + intros He Hr. cbn [app pollLoop]. rewrite He, Hr. cbn [fst snd].
      split; [reflexivity|].
      change (EvQuery (query q) :: ?l) with ([EvQuery (query q)] ++ l).
      rewrite !countQueries_app,
        (countQueries_quiet _ (printWarnings_quiet _)). reflexivity.
  - destruct IH as (Hb & Hc & He & Hp).
    destruct (pollLoop_answered g q a pre Ha) as [E1 E2].
    destruct (pollLoop_answered g q a (pre ++ r :: rest) Ha) as [E3 E4].
    cbn [app length]. rewrite E1, E2, E3, E4.
    split; [exact Hb|]. split; [rewrite Hc; reflexivity|]. split.
    + intros e Hr. destruct (He e Hr) as [-> ->]. split; reflexivity.
    + intros Hr Hn. destruct (Hp Hr Hn) as [-> ->]. split; reflexivity.
Qed.

Lemma task_ends_at_the_first_failed_query_witness :
  Forall answers [samples.vectorOf [samples.unlabelled 0]; samples.noResult]
  /\ (pollLoop Cluster samples.nodeCount
        ([samples.vectorOf [samples.unlabelled 0]; samples.noResult]
           ++ {| result := None; warnings := []; err := Some (Err "timeout") |}
           :: [samples.noResult]) []).2 =
       Returned (Wrap (Err "timeout") "error querying Prometheus").
Proof.
  assert (H : Forall answers
                [samples.vectorOf [samples.unlabelled 0]; samples.noResult]).
  { repeat constructor; discriminate. }
  split; [exact H|].
  apply (task_ends_at_the_first_failed_query Cluster samples.nodeCount _
           {| result := None; warnings := []; err := Some (Err "timeout") |}
           [samples.noResult] H).
  reflexivity.
Defined.

Lemma vector_iterations_wait_witness :
  Forall (fun r => result r <> None)
         [samples.vectorOf []; samples.vectorOf [samples.unlabelled 0]]
  /\ (pollLoop Node samples.nodeCount
        [samples.vectorOf []; samples.vectorOf [samples.unlabelled 0]] []).1 =
       [ EvQuery (query samples.nodeCount); EvWait 55;
         EvQuery (query samples.nodeCount);
         EvSend Node {| Id := sha1.Sum (bytes "");
                        Timestamp_ := 0; Category := "node.count"; Name := "";
                        Value_ := samples.one |};
         EvWait 55 ]
  /\ waitedBetween
       (pollLoop Node samples.nodeCount
          [samples.vectorOf []; samples.vectorOf [samples.unlabelled 0]] []).1
     = true.
Proof.
  assert (H : Forall (fun r => result r <> None)
                [samples.vectorOf []; samples.vectorOf [samples.unlabelled 0]]).
  { repeat constructor; discriminate. }
  split; [exact H|]. split; [vm_compute; reflexivity|].
  apply (vector_iterations_wait Node samples.nodeCount _ H []).
Defined.

(** *** The tasks of [Run] *)

Lemma pollerKeys_NoDup : NoDup (pollerKey <$> pollers).
Proof. apply (bool_decide_unpack _). vm_compute. reflexivity. Qed.

Lemma pollLoop_sent_category g q script sched g' m :
  EvSend g' m ∈ (pollLoop g q script sched).1 ->
  g' = g /\ Category m = metricCategory q.
Proof.
  intros Hin.
  pose proof (pollLoop_Forall g q (taskRecord g q)
                ltac:(intros; exact I) ltac:(intros; exact I)
                ltac:(intros; exact I) (metricOf_taskRecord g q)
                script sched) as HF.
  rewrite Forall_forall in HF. specialize (HF _ Hin). cbn in HF. tauto.
Qed.

(** X8. [Run] starts forty-five poller tasks, and no two of them write
    under the same granularity and category: whatever the backend answers,
    a record sent by one task never has the key of a record sent by
    another task to the same channel. *)
Theorem tasks_never_share_a_record_key i j g q1 q2 s1 c1 s2 c2 m1 m2 :
  pollers !! i = Some (g, q1) ->
  pollers !! j = Some (g, q2) ->
  i <> j ->
  EvSend g m1 ∈ (pollLoop g q1 s1 c1).1 ->
  EvSend g m2 ∈ (pollLoop g q2 s2 c2).1 ->
  length pollers = 45%nat /\ recordKey m1 <> recordKey m2.
Proof.
  intros Hi Hj Hne H1 H2. split; [reflexivity|].
  apply pollLoop_sent_category in H1 as [_ E1].
  apply pollLoop_sent_category in H2 as [_ E2].
  intros Hk. apply Hne.
  apply (NoDup_lookup _ i j (g, metricCategory q1) pollerKeys_NoDup).
  - rewrite list_lookup_fmap, Hi. reflexivity.
  - rewrite list_lookup_fmap, Hj. cbn. unfold pollerKey. cbn.
    rewrite <- E1, <- E2. unfold recordKey in Hk. congruence.
Qed.

Lemma tasks_never_share_a_record_key_witness :
  exists q1 q2 m1 m2,
    pollers !! 12%nat = Some (Node, q1)
    /\ pollers !! 13%nat = Some (Node, q2)
    /\ EvSend Node m1 ∈ (pollLoop Node q1 [samples.vectorOf [samples.unlabelled 0]] []).1
    /\ EvSend Node m2 ∈ (pollLoop Node q2 [samples.vectorOf [samples.unlabelled 0]] []).1
    /\ recordKey m1 <> recordKey m2.
Proof.
  eexists _, _, _, _.
  split; [reflexivity|]. split; [reflexivity|].
  split; [vm_compute; right; left|]. split; [vm_compute; right; left|].
  refine (proj2 (tasks_never_share_a_record_key 12 13 Node _ _
            [samples.vectorOf [samples.unlabelled 0]] []
            [samples.vectorOf [samples.unlabelled 0]] [] _ _
            eq_refl eq_refl _ _ _)).
  - discriminate.
  - vm_compute; right; left.
  - vm_compute; right; left.
Defined.

End metrics_extras.

(** ** More on the pod controller *)
Module controller_extras.
Import controller controller_props controller_samples controller_aux.

Lemma fold_left_last {A B} (F : B -> A) (cs : list B) (init : A) :
  fold_left (fun _ c => F c) cs init =
  match last cs with Some c => F c | None => init end.
Proof.
  revert init. induction cs as [|c cs IH]; intros init; [reflexivity|].
  cbn [fold_left]. rewrite IH. destruct cs as [|c' cs]; [reflexivity|].
  rewrite last_cons_cons. destruct (last (c' :: cs)) eqn:E; [reflexivity|].
  apply last_None in E. discriminate E.
Qed.

(** X9. [GetPodMetrics] makes one request.  When it fails, the four
    usages are zero and the error is handed back; when it succeeds, the
    usages are those of the last container the API reports (each container
    overwrites the one before, nothing is summed) and zero when it reports
    none. *)
Theorem GetPodMetrics_reports_the_last_container env k8sPod st :
  calls (GetPodMetrics env k8sPod st).2 =
    calls st ++ [(PodMetricsesGet (PodNamespace k8sPod) (PodName k8sPod),
                  default None (head (faults st)))]
  /\ (GetPodMetrics env k8sPod st).1 =
       match default None (head (faults st)) with
       | Some e => Some ((0, 1), (0, 1), (0, 1), (0, 1), Some e)
       | None =>
           Some (lastUsage (MContainers
                              (metricsOf env (PodNamespace k8sPod) (PodName k8sPod))),
                 None)
       end.
Proof.
  unfold GetPodMetrics. rewrite bind_unfold.
  destruct (PodMetricsesGet_spec env (PodNamespace k8sPod) (PodName k8sPod) st)
    as [f Hf].
  assert (Ef : f = default None (head (faults st))).
  { revert Hf. unfold PodMetricsesGet_, bind, call.
    destruct (faults st) as [|[e|] rest]; cbn; intros [= ? ?]; congruence. }
  rewrite Hf. subst f.
  destruct (default None (head (faults st))) as [e|]; cbn [ret fst snd calls].
  - split; reflexivity.
  - split; [reflexivity|]. f_equal.
    rewrite (fold_left_last
               (fun container =>
                  ((UsageCPU container, 1000),
                   (UsageMemory container, 1024 * 1024),
                   (UsageStorage container, 1024 * 1024),
                   (UsageEphemeralStorage container, 1024 * 1024),
                   @None error))).
    unfold lastUsage. destruct (last _); reflexivity.
Qed.

(** Case analysis on the first three entries of the fault script. *)
Ltac script3 st :=
  destruct (faults st) as [|[?|] [|[?|] [|[?|] ?]]] eqn:?.

Ltac run_calls :=
  unfold Sync, syncPodMetrics, syncContainerLogs, GetPodMetrics,
    PodMetricsesGet_, dbExec, bind, call, ret;
  cbn -[execStmt fold_left app].

(** *** Deleting *)

Lemma removesOnly_refl ns n d : removesOnly ns n d d.
Proof. unfold removesOnly. tauto. Qed.

Lemma removesOnly_trans ns n d1 d2 d3 :
  removesOnly ns n d1 d2 -> removesOnly ns n d2 d3 -> removesOnly ns n d1 d3.
Proof.
  unfold removesOnly.
  intros (A1 & A2 & A3 & A4 & A5 & A6) (B1 & B2 & B3 & B4 & B5 & B6).
  repeat split; eauto.
Qed.

Lemma removesOnly_delete ns n s d :
  s = DeleteFromPod ns n \/ s = DeleteFromContainerLogs ns n
  \/ s = DeleteFromPodMetrics ns n ->
  removesOnly ns n d (execStmt s d).
Proof.
  intros [-> | [-> | ->]]; unfold removesOnly; cbn [execStmt pod container_logs pod_metrics];
    repeat split; try tauto; intros r Hr;
    try (apply list_elem_of_filter in Hr as [_ Hr]; exact Hr);
    intros Hk; apply list_elem_of_filter; (split; [|exact Hr]);
    destruct (sameKey _ _ ns n) eqn:E; try reflexivity;
    apply sameKey_true in E; contradiction.
Qed.

(** X11. On a delete, a key that does not split into namespace and name
    makes [Sync] return the error without sending anything.  Otherwise the
    statements sent are a prefix of the three deletes, [Sync] returns an
    error exactly when the last statement it sent failed, with that error,
    and nil when all three succeeded. *)
Theorem delete_stops_at_the_first_failed_statement env key obj st :
  match SplitMetaNamespaceKey key with
  | (_, _, Some e) => Sync env key obj false st = (Some (Some e), st)
  | (ns, n, None) =>
      exists new r,
        (Sync env key obj false st).1 = Some r
        /\ calls (Sync env key obj false st).2 = calls st ++ new
        /\ failsLast r new
        /\ stmtsOf new `prefix_of`
             [DeleteFromPod ns n; DeleteFromContainerLogs ns n;
              DeleteFromPodMetrics ns n]
        /\ (r = None -> length new = 3%nat)
  end.
Proof.
  destruct (SplitMetaNamespaceKey key) as [[ns n] [e|]] eqn:Hk.
  - unfold Sync. cbn [negb]. rewrite Hk. reflexivity.
  - script3 st; run_calls; rewrite Hk;
      match goal with H : faults st = _ |- _ => rewrite H end;
      cbn -[execStmt app]; rewrite <- ?app_assoc;
      eexists _, _; (split; [reflexivity|]); (split; [reflexivity|]);
      (split;
       [ lazymatch goal with
         | |- failsLast None _ => repeat constructor
         | |- failsLast (Some _) _ =>
             first [ eexists [], _; split; [reflexivity|constructor]
                   | eexists [_], _; split; [reflexivity|repeat constructor]
                   | eexists [_; _], _; split; [reflexivity|repeat constructor] ]
         end
       | split;
         [ cbn; first [ reflexivity
                      | eexists; reflexivity ]
         | first [ discriminate | intros _; reflexivity ] ] ]).
Qed.

(** X12. A delete only removes: whatever the store answers, afterwards
    it holds no row it did not hold before, and it still holds every row
    of the three tables that belongs to another pod. *)
Theorem delete_leaves_other_pods_alone env key obj st ns n :
  SplitMetaNamespaceKey key = (ns, n, None) ->
  removesOnly ns n (db st) (db (Sync env key obj false st).2).
Proof.
  intros Hk.
  script3 st; run_calls; rewrite Hk;
    match goal with H : faults st = _ |- _ => rewrite H end;
    cbn -[execStmt];
    repeat first [ apply removesOnly_refl
                 | eapply removesOnly_trans;
                   [|apply removesOnly_delete; tauto] ].
Qed.

Lemma delete_leaves_other_pods_alone_witness :
  SplitMetaNamespaceKey "default/web-1" = ("default", "web-1", None)
  /\ podRow "default" "db-0"
       ∈ pod (db (Sync env0 "default/web-1" NotAPod false
                       (start db0 [None; Some unavailable])).2)
  /\ logRow "default" "db-0" "pg"
       ∈ container_logs (db (Sync env0 "default/web-1" NotAPod false
                                  (start db0 [None; Some unavailable])).2).
Proof.
  split; [reflexivity|].
  pose proof (delete_leaves_other_pods_alone env0 "default/web-1" NotAPod
                (start db0 [None; Some unavailable]) "default" "web-1" eq_refl)
    as (_ & _ & _ & Hp & Hl & _).
  split.
  - apply Hp; [vm_compute; right; left|intros [_ [=]]].
  - apply Hl; [vm_compute; right; left|intros [_ [=]]].
Defined.

(** *** Upserting *)

(** X13. When its two requests and its statement succeed,
    [syncPodMetrics] asks the API twice for the same pod metrics and writes
    one row for the container it was given; the four usages of that row are
    those of the last container the API reports, whichever container the
    row is for. *)
Theorem syncPodMetrics_writes_the_last_containers_usage env k8sPod cm st :
  succeed 3 st ->
  (syncPodMetrics env k8sPod cm st).1 = Some None
  /\ exists row,
      calls (syncPodMetrics env k8sPod cm st).2 =
        calls st ++
        [ (PodMetricsesGet (PodNamespace k8sPod) (PodName k8sPod), None);
          (PodMetricsesGet (PodNamespace k8sPod) (PodName k8sPod), None);
          (Exec (UpsertPodMetrics row), None) ]
      /\ db (syncPodMetrics env k8sPod cm st).2 =
           execStmt (UpsertPodMetrics row) (db st)
      /\ RNamespace row = PodNamespace k8sPod
      /\ RPodName row = PodName k8sPod
      /\ RContainerName row = CName cm
      /\ usagesOf row =
           lastUsage (MContainers
                        (metricsOf env (PodNamespace k8sPod) (PodName k8sPod))).
Proof.
  intros H3. unfold succeed in H3.
  set (F := fun container : ContainerMetrics =>
              ((UsageCPU container, 1000),
               (UsageMemory container, 1024 * 1024),
               (UsageStorage container, 1024 * 1024),
               (UsageEphemeralStorage container, 1024 * 1024),
               @None error)).
  assert (HF : forall cs,
             fold_left (fun _ c => F c) cs ((0, 1), (0, 1), (0, 1), (0, 1), None)
             = (lastUsage cs, None)).
  { intros cs. rewrite fold_left_last. unfold lastUsage, F.
    destruct (last cs); reflexivity. }
  script3 st; cbn in H3;
    repeat match goal with
           | H : Forall _ (_ :: _) |- _ =>
               let E := fresh in apply Forall_cons in H as [E H]; try discriminate E
           end;
    run_calls;
    match goal with H : faults st = _ |- _ => rewrite H end;
    cbn -[execStmt fold_left app];
    fold F; rewrite HF;
    destruct (lastUsage _) as [[[cpu mem] sto] eph];
    cbn -[execStmt app]; rewrite <- ?app_assoc;
    (split; [reflexivity|]); eexists; repeat split; reflexivity.
Qed.

Lemma syncPodMetrics_writes_the_last_containers_usage_witness :
  succeed 3 (start db0 [])
  /\ exists row,
      stmtsOf (calls (syncPodMetrics env2 web1
                        {| CName := "app"; UsageCPU := 250;
                           UsageMemory := 1048576; UsageStorage := 0;
                           UsageEphemeralStorage := 0 |}
                        (start db0 [])).2) = [UpsertPodMetrics row]
      /\ RContainerName row = "app"
      /\ CPUUsage row = (10, 1000).
Proof.
  split; [constructor|].
  destruct (syncPodMetrics_writes_the_last_containers_usage env2 web1
              {| CName := "app"; UsageCPU := 250; UsageMemory := 1048576;
                 UsageStorage := 0; UsageEphemeralStorage := 0 |}
              (start db0 []) ltac:(constructor))
    as (_ & row & Hc & _ & _ & _ & Hn & Hu).
  exists row. rewrite Hc. split; [reflexivity|]. split; [exact Hn|].
  apply (f_equal (fun u => u.1.1.1)) in Hu. exact Hu.
Defined.

(** X14. [syncContainerLogs] writes to the store only as its last step:
    when it returns an error the store is as it was, and when it returns
    nil it made exactly the log request, the read and one upsert of the
    container's log row. *)
Theorem syncContainerLogs_writes_last env k8sPod container st :
  match (syncContainerLogs env k8sPod container st).1 with
  | Some (Some e) => db (syncContainerLogs env k8sPod container st).2 = db st
  | Some None =>
      calls (syncContainerLogs env k8sPod container st).2 =
        calls st ++
        [ (GetLogsStream (PodNamespace k8sPod) (PodName k8sPod) container, None);
          (ReadAll, None);
          (Exec (UpsertContainerLogs
                   {| LContainerName := container;
                      LPodName := PodName k8sPod;
                      LNamespace := PodNamespace k8sPod;
                      Logs := logsOf env (PodNamespace k8sPod) (PodName k8sPod)
                                     container |}), None) ]
      /\ db (syncContainerLogs env k8sPod container st).2 =
           execStmt (UpsertContainerLogs
                       {| LContainerName := container;
                          LPodName := PodName k8sPod;
                          LNamespace := PodNamespace k8sPod;
                          Logs := logsOf env (PodNamespace k8sPod)
                                         (PodName k8sPod) container |})
                    (db st)
  | None => False
  end.
Proof.
  script3 st; run_calls;
    match goal with H : faults st = _ |- _ => rewrite H end;
    cbn -[execStmt app]; rewrite <- ?app_assoc;
    first [ reflexivity | split; reflexivity ].
Qed.

(** *** A run in which every call succeeds *)

Lemma runsOk_forEach {A} (f : A -> M (option error)) cl ss xs :
  (forall x, runsOk (f x) (cl x) [ss x]) ->
  runsOk (forEach f xs) (concat (cl <$> xs)) (ss <$> xs).
Proof.
  intros Hf. induction xs as [|x xs IH]; intros st Hst; cbn [forEach].
  - cbn. rewrite app_nil_r. destruct st; cbn in *; subst. reflexivity.
  - rewrite bind_unfold, (Hf x st Hst).
    rewrite IH by reflexivity. cbn [db calls fmap list_fmap concat fold_left].
    rewrite <- app_assoc. reflexivity.
Qed.

Lemma runsOk_syncContainerLogs env k8sPod container :
  runsOk (syncContainerLogs env k8sPod container)
         (logCalls env k8sPod container)
         [UpsertContainerLogs (logRowOf env k8sPod container)].
Proof.
  intros st Hst. run_calls. rewrite Hst. cbn -[execStmt app].
  rewrite <- !app_assoc. reflexivity.
Qed.

Lemma runsOk_syncPodMetrics env k8sPod cm :
  runsOk (syncPodMetrics env k8sPod cm)
         (metricsCalls env k8sPod cm)
         [UpsertPodMetrics (metricsRowOf env k8sPod cm)].
Proof.
  intros st Hst.
  set (F := fun container : ContainerMetrics =>
              ((UsageCPU container, 1000),
               (UsageMemory container, 1024 * 1024),
               (UsageStorage container, 1024 * 1024),
               (UsageEphemeralStorage container, 1024 * 1024),
               @None error)).
  assert (HF : forall cs,
             fold_left (fun _ c => F c) cs ((0, 1), (0, 1), (0, 1), (0, 1), None)
             = (lastUsage cs, None)).
  { intros cs. rewrite fold_left_last. unfold lastUsage, F.
    destruct (last cs); reflexivity. }
  run_calls. rewrite Hst. cbn -[execStmt fold_left app].
  fold F. rewrite HF. unfold metricsCalls, metricsRowOf. cbv zeta.
  destruct (lastUsage _) as [[[cpu mem] sto] eph].
  cbn -[execStmt app]. rewrite <- !app_assoc. reflexivity.
Qed.

Lemma stmtsOf_app cs1 cs2 : stmtsOf (cs1 ++ cs2) = stmtsOf cs1 ++ stmtsOf cs2.
Proof. unfold stmtsOf. apply omap_app. Qed.

Lemma metricsRequests_app cs1 cs2 :
  metricsRequests (cs1 ++ cs2) = (metricsRequests cs1 + metricsRequests cs2)%nat.
Proof. unfold metricsRequests. rewrite List.filter_app, length_app. reflexivity. Qed.

Lemma logCalls_summary env k8sPod cs :
  stmtsOf (concat (logCalls env k8sPod <$> cs))
  = (fun c => UpsertContainerLogs (logRowOf env k8sPod c)) <$> cs
  /\ metricsRequests (concat (logCalls env k8sPod <$> cs)) = 0%nat
  /\ okCalls (concat (logCalls env k8sPod <$> cs)).
Proof.
  induction cs as [|c cs (IH1 & IH2 & IH3)];
    [split; [reflexivity|split; [reflexivity|constructor]]|].
  cbn [fmap list_fmap concat]. rewrite stmtsOf_app, metricsRequests_app, IH1, IH2.
  split; [reflexivity|]. split; [reflexivity|].
  apply Forall_app. split; [repeat constructor|exact IH3].
Qed.

Lemma metricsCalls_summary env k8sPod ms :
  stmtsOf (concat (metricsCalls env k8sPod <$> ms))
  = (fun cm => UpsertPodMetrics (metricsRowOf env k8sPod cm)) <$> ms
  /\ metricsRequests (concat (metricsCalls env k8sPod <$> ms))
     = (2 * length ms)%nat
  /\ okCalls (concat (metricsCalls env k8sPod <$> ms)).
Proof.
  induction ms as [|cm ms (IH1 & IH2 & IH3)];
    [split; [reflexivity|split; [reflexivity|constructor]]|].
  cbn [fmap list_fmap concat]. rewrite stmtsOf_app, metricsRequests_app, IH1, IH2.
  split; [reflexivity|]. split.
  - cbn [length]. unfold metricsRequests at 1. cbn. lia.
  - apply Forall_app. split; [repeat constructor|exact IH3].
Qed.

(** X15. An upsert in which the mapping and every call succeed returns nil
    after writing, in this order, the pod row, one log row per container of
    the pod and one metrics row per container the API reports, nothing
    else; it asks the API for the same pod metrics once itself and twice
    more for every reported container. *)
Theorem successful_upsert_writes_one_row_per_container env key k8sPod row st :
  NewPodFromK8s env k8sPod = (row, None) ->
  faults st = [] ->
  exists new,
    Sync env key (IsPod k8sPod) true st =
      (Some None,
       {| db := fold_left (fun d s => execStmt s d) (stmtsOf new) (db st);
          faults := [];
          calls := calls st ++ new |})
    /\ okCalls new
    /\ stmtsOf new =
         UpsertPod row
         :: ((fun c => UpsertContainerLogs (logRowOf env k8sPod c))
               <$> Containers k8sPod)
         ++ ((fun cm => UpsertPodMetrics (metricsRowOf env k8sPod cm))
               <$> MContainers (metricsOf env (Namespace row) (Name row)))
    /\ metricsRequests new =
         (1 + 2 * length (MContainers (metricsOf env (Namespace row) (Name row))))%nat.
Proof.
  intros Hrow Hst.
  set (ms := MContainers (metricsOf env (Namespace row) (Name row))).
  pose proof (runsOk_forEach _ _ _ (Containers k8sPod)
                (runsOk_syncContainerLogs env k8sPod)) as Hlogs.
  pose proof (runsOk_forEach _ _ _ ms (runsOk_syncPodMetrics env k8sPod)) as Hms.
  destruct (logCalls_summary env k8sPod (Containers k8sPod)) as (Sl & Rl & Ol).
  destruct (metricsCalls_summary env k8sPod ms) as (Sm & Rm & Om).
  set (new := [(Exec (UpsertPod row), @None error)]
              ++ concat (logCalls env k8sPod <$> Containers k8sPod)
              ++ [(PodMetricsesGet (Namespace row) (Name row), @None error)]
              ++ concat (metricsCalls env k8sPod <$> ms)).
  assert (Hs : stmtsOf new =
               UpsertPod row
               :: ((fun c => UpsertContainerLogs (logRowOf env k8sPod c))
                     <$> Containers k8sPod)
               ++ ((fun cm => UpsertPodMetrics (metricsRowOf env k8sPod cm))
                     <$> ms)).
  { unfold new. rewrite !stmtsOf_app, Sl, Sm. reflexivity. }
  exists new. split; [|split; [|split]].
  - rewrite Hs. unfold Sync. cbn [negb]. rewrite Hrow.
    rewrite bind_unfold. unfold dbExec at 1, call at 1. rewrite Hst.
    rewrite bind_unfold, Hlogs by reflexivity.
    rewrite bind_unfold. unfold PodMetricsesGet_ at 1.
    rewrite bind_unfold. unfold call at 1. cbn [faults db calls id ret].
    fold ms. rewrite bind_unfold, Hms by reflexivity. cbn [ret db calls].
    unfold new. rewrite <- !app_assoc. cbn [fold_left]. rewrite fold_left_app.
    reflexivity.
  - unfold new. repeat (apply Forall_app; split); auto; repeat constructor.
  - exact Hs.
  - unfold new. rewrite !metricsRequests_app, Rl, Rm. reflexivity.
Qed.

Lemma successful_upsert_writes_one_row_per_container_witness :
  NewPodFromK8s env2 web1 = (podRow "default" "web-1", None)
  /\ faults (start db0 []) = []
  /\ (Sync env2 "default/web-1" (IsPod web1) true (start db0 [])).1 = Some None
  /\ stmtsOf (calls (Sync env2 "default/web-1" (IsPod web1) true
                          (start db0 [])).2) =
       [ UpsertPod (podRow "default" "web-1");
         UpsertContainerLogs (logRowOf env2 web1 "app");
         UpsertPodMetrics
           (metricsRowOf env2 web1
              {| CName := "app"; UsageCPU := 250; UsageMemory := 1048576;
                 UsageStorage := 0; UsageEphemeralStorage := 0 |});
         UpsertPodMetrics
           (metricsRowOf env2 web1
              {| CName := "sidecar"; UsageCPU := 10; UsageMemory := 2097152;
                 UsageStorage := 0; UsageEphemeralStorage := 0 |}) ]
  /\ metricsRequests (calls (Sync env2 "default/web-1" (IsPod web1) true
                                  (start db0 [])).2) = 5%nat.
Proof.
  split; [reflexivity|]. split; [reflexivity|].
  destruct (successful_upsert_writes_one_row_per_container env2 "default/web-1"
              web1 (podRow "default" "web-1") (start db0 []) eq_refl eq_refl)
    as (new & -> & _ & Hs & Hr).
  cbn [fst snd calls start app]. split; [reflexivity|].
  split; [exact Hs|exact Hr].
Defined.

(** *** Keys *)

Lemma Split_noSlash s : noSlash s = true -> Split s = [s].
Proof.
  induction s as [|c s IH]; [reflexivity|]. cbn [noSlash Split].
  intros [Hc Hs]%andb_true_iff. apply negb_true_iff in Hc. rewrite Hc.
  rewrite (IH Hs). reflexivity.
Qed.

Lemma Split_join a b :
  noSlash a = true -> Split (a ++ "/" ++ b) = a :: Split b.
Proof.
  induction a as [|c a IH]; [reflexivity|]. cbn [noSlash].
  intros [Hc Hs]%andb_true_iff. apply negb_true_iff in Hc.
  change ((String c a ++ "/" ++ b)%string) with (String c (a ++ "/" ++ b)).
  cbn [Split]. rewrite Hc, (IH Hs). reflexivity.
Qed.

Lemma Split_nonempty s : Split s <> [].
Proof.
  induction s as [|c s IH]; [discriminate|]. cbn [Split].
  destruct (Ascii.eqb c "/"); [discriminate|].
  destruct (Split s); [contradiction|discriminate].
Qed.

(** X20. The key of a namespaced object, [namespace/name], is read back by
    [Sync] as that namespace and name; a key without a slash is a name in
    the empty namespace; and on a key with one more component a delete
    returns an error and sends nothing to the store. *)
Theorem namespace_key_round_trip env obj st ns n rest :
  noSlash ns = true ->
  noSlash n = true ->
  SplitMetaNamespaceKey (ns ++ "/" ++ n) = (ns, n, None)
  /\ SplitMetaNamespaceKey n = ("", n, None)
  /\ exists e,
      Sync env (ns ++ "/" ++ n ++ "/" ++ rest) obj false st = (Some (Some e), st).
Proof.
  intros Hns Hn. unfold SplitMetaNamespaceKey. split; [|split].
  - rewrite (Split_join ns n Hns), (Split_noSlash n Hn). reflexivity.
  - rewrite (Split_noSlash n Hn). reflexivity.
  - unfold Sync, SplitMetaNamespaceKey. cbn [negb].
    rewrite (Split_join ns _ Hns), (Split_join n rest Hn).
    pose proof (Split_nonempty rest).
    destruct (Split rest) as [|x l]; [contradiction|].
    eexists. reflexivity.
Qed.

Lemma namespace_key_round_trip_witness :
  noSlash "default" = true
  /\ noSlash "web-1" = true
  /\ SplitMetaNamespaceKey "default/web-1" = ("default", "web-1", None)
  /\ exists e,
      Sync env0 "default/web-1/app" NotAPod false (start db0 []) =
        (Some (Some e), start db0 []).
Proof.
  split; [reflexivity|]. split; [reflexivity|].
  destruct (namespace_key_round_trip env0 NotAPod (start db0 [])
              "default" "web-1" "app" eq_refl eq_refl) as (Hs & _ & He).
  split; [exact Hs|exact He].
Defined.

End controller_extras.

(** ** More on the PVC entity *)
Module v1_extras.
Import v1 v1_props v1_samples.

Section Mapping.
Variable Snake : string -> string.
Variable ToLower : string -> string.
Variable Checksum : string -> Binary.

(** Whether a run on a claim panics is decided by the claim alone. *)
Lemma Obtain_None_PVC visit p pvc :
  Obtain Snake ToLower Checksum visit p (IsPvc pvc) = None ->
  is_Some (SpecVolumeMode pvc) /\ SpecStorageClassName pvc = None.
Proof.
  unfold Obtain. cbv zeta.
  destruct (SpecVolumeMode pvc) as [m|];
    [destruct (SpecStorageClassName pvc) as [sc|]|]; try discriminate.
  intros _. split; [eauto|reflexivity].
Qed.

Lemma Obtain_Some_PVC visit p pvc r :
  Obtain Snake ToLower Checksum visit p (IsPvc pvc) = Some r ->
  ~ (is_Some (SpecVolumeMode pvc) /\ SpecStorageClassName pvc = None).
Proof.
  unfold Obtain. cbv zeta.
  destruct (SpecVolumeMode pvc) as [m|];
    [destruct (SpecStorageClassName pvc) as [sc|]|]; try discriminate;
    intros _ [[x Hx] Hn]; discriminate.
Qed.

(** X16. After [Obtain] on a fresh entity, every condition row and every
    label association carries the identifier of the entity as its foreign
    key, and the associations point, one by one and in the same order, to
    the labels collected with them. *)
Theorem Obtain_rows_reference_the_entity visit pvc r :
  Obtain Snake ToLower Checksum visit NewPvc (IsPvc pvc) = Some r ->
  (forall c, c ∈ Conditions r -> PvcId c = Id r)
  /\ (forall l, l ∈ PvcLabels r -> LPvcId l = Id r)
  /\ LabelId <$> PvcLabels r = LabelId_ <$> Labels r
  /\ length (Conditions r) = length (StatusConditions pvc).
Proof.
  intros Ho. apply Obtain_Some in Ho as (_ & _ & _ & _ & _ & Hc & Hl & Hp).
  cbn [NewPvc Conditions Labels PvcLabels app] in Hc, Hl, Hp.
  repeat split.
  - intros c Hin. rewrite Hc in Hin.
    apply list_elem_of_fmap in Hin as (x & -> & _). reflexivity.
  - intros l Hin. rewrite Hp in Hin.
    apply list_elem_of_fmap in Hin as (x & -> & _). reflexivity.
  - rewrite Hp, Hl. rewrite <- !list_fmap_compose. reflexivity.
  - rewrite Hc. apply length_map.
Qed.

(** X17. The labels [Obtain] collects on a fresh entity are exactly the
    entries of the object's label map: a row with a given name and value is
    there if and only if the map holds that value under that name, no name
    occurs twice, and there are as many rows as entries. *)
Theorem Obtain_collects_the_label_map visit pvc r :
  visits pvc visit ->
  Obtain Snake ToLower Checksum visit NewPvc (IsPvc pvc) = Some r ->
  (forall n v, (exists l, l ∈ Labels r /\ LabelName l = n /\ LabelValue l = v)
               <-> ObjLabels pvc !! n = Some v)
  /\ NoDup (LabelName <$> Labels r)
  /\ length (Labels r) = size (ObjLabels pvc)
  /\ length (PvcLabels r) = size (ObjLabels pvc).
Proof.
  unfold visits. intros Hv Ho.
  apply Obtain_Some in Ho as (_ & _ & _ & _ & _ & _ & Hl & Hp).
  cbn [NewPvc Labels PvcLabels app] in Hl, Hp.
  repeat split.
  - intros (l & Hin & <- & <-). rewrite Hl in Hin.
    apply list_elem_of_fmap in Hin as ([n v] & -> & Hin). cbn.
    rewrite Hv in Hin. apply elem_of_map_to_list in Hin. exact Hin.
  - intros Hm. apply elem_of_map_to_list in Hm. rewrite <- Hv in Hm.
    eexists. split; [rewrite Hl; apply list_elem_of_fmap; eexists; split;
                     [reflexivity|exact Hm]|].
    split; reflexivity.
  - rewrite Hl, <- list_fmap_compose.
    change (NoDup (visit.*1)). rewrite Hv. apply NoDup_fst_map_to_list.
  - rewrite Hl, length_map, Hv. apply length_map_to_list.
  - rewrite Hp, length_map, Hv. apply length_map_to_list.
Qed.

(** X18. [Obtain] never resets its receiver.  The rows the receiver
    already held stay in front of the ones a run adds, so a second run on
    the same entity holds every row twice; and for an object without a
    volume mode the run does not panic and leaves [VolumeMode] and
    [StorageClass] as they were. *)
Theorem Obtain_extends_its_receiver visit p pvc r :
  Obtain Snake ToLower Checksum visit p (IsPvc pvc) = Some r ->
  Conditions p `prefix_of` Conditions r
  /\ Labels p `prefix_of` Labels r
  /\ PvcLabels p `prefix_of` PvcLabels r
  /\ length (Conditions r) =
       (length (Conditions p) + length (StatusConditions pvc))%nat
  /\ length (Labels r) = (length (Labels p) + length visit)%nat
  /\ (SpecVolumeMode pvc = None ->
      VolumeMode r = VolumeMode p /\ StorageClass r = StorageClass p)
  /\ (p = NewPvc ->
      exists r2, Obtain Snake ToLower Checksum visit r (IsPvc pvc) = Some r2
                 /\ Conditions r2 = Conditions r ++ Conditions r
                 /\ Labels r2 = Labels r ++ Labels r
                 /\ PvcLabels r2 = PvcLabels r ++ PvcLabels r).
Proof.
  intros Ho.
  pose proof (Obtain_Some _ _ _ _ _ _ _ Ho) as (Hid & _ & _ & _ & Hm & Hc & Hl & Hp).
  split; [rewrite Hc; apply prefix_app_r; reflexivity|].
  split; [rewrite Hl; apply prefix_app_r; reflexivity|].
  split; [rewrite Hp; apply prefix_app_r; reflexivity|].
  split; [rewrite Hc, length_app, length_map; reflexivity|].
  split; [rewrite Hl, length_app, length_map; reflexivity|].
  split.
  - intros Hn. rewrite Hn in Hm. split; [exact Hm|].
    revert Ho. unfold Obtain. cbv zeta. rewrite Hn. intros [= <-]. reflexivity.
  - intros ->. cbn [NewPvc Conditions Labels PvcLabels app] in Hc, Hl, Hp.
    destruct (Obtain Snake ToLower Checksum visit r (IsPvc pvc)) as [r2|] eqn:E2.
    + exists r2. split; [reflexivity|].
      apply Obtain_Some in E2 as (Hid2 & _ & _ & _ & _ & Hc2 & Hl2 & Hp2).
      rewrite Hid2, <- Hid in Hc2, Hp2.
      rewrite <- Hc in Hc2. rewrite <- Hl in Hl2. rewrite <- Hp in Hp2. auto.
    + exfalso. apply Obtain_None_PVC in E2. apply Obtain_Some_PVC in Ho. tauto.
Qed.

End Mapping.

Lemma Obtain_rows_reference_the_entity_witness :
  exists r,
    Obtain id id sha appFirst NewPvc (IsPvc dataClaim) = Some r
    /\ (forall l, l ∈ PvcLabels r -> LPvcId l = Id r)
    /\ LabelId <$> PvcLabels r = LabelId_ <$> Labels r.
Proof.
  eexists. split; [reflexivity|].
  pose proof (Obtain_rows_reference_the_entity id id sha appFirst dataClaim _
                eq_refl) as (_ & Hp & Ha & _).
  split; [exact Hp|exact Ha].
Defined.

Lemma Obtain_collects_the_label_map_witness :
  visits dataClaim tierFirst
  /\ exists r,
      Obtain id id sha tierFirst NewPvc (IsPvc dataClaim) = Some r
      /\ (exists l, l ∈ Labels r /\ LabelName l = "app" /\ LabelValue l = "web")
      /\ length (Labels r) = size (ObjLabels dataClaim).
Proof.
  split; [exact visits_tierFirst|].
  eexists. split; [reflexivity|].
  pose proof (Obtain_collects_the_label_map id id sha tierFirst dataClaim _
                visits_tierFirst eq_refl) as (Hm & _ & Hl & _).
  split; [|exact Hl].
  apply Hm. vm_compute. reflexivity.
Defined.

Lemma Obtain_extends_its_receiver_witness :
  exists r r2,
    Obtain id id sha appFirst NewPvc (IsPvc dataClaim) = Some r
    /\ Obtain id id sha appFirst r (IsPvc dataClaim) = Some r2
    /\ length (Conditions r) = 1%nat
    /\ Conditions r2 = Conditions r ++ Conditions r.
Proof.
  eexists.
  destruct (Obtain_extends_its_receiver id id sha appFirst NewPvc dataClaim _
              eq_refl) as (_ & _ & _ & Hlen & _ & _ & H2).
  destruct (H2 eq_refl) as (r2 & E2 & Hc & _).
  exists r2. split; [reflexivity|]. split; [exact E2|]. split; [exact Hlen|exact Hc].
Defined.

End v1_extras.
